(** * Sauron: the follower-lifecycle manager of package [eye]

    A shallow embedding of [eye/trail.go] and [eye/trail_options.go]:
    the ignore policy, the pool of tailers kept in [Trail.tails], the
    event loop started by [Follow], the shutdown signal of [End] and
    the staleness sweep [unfollowOldFiles].

    The operating system, the tail library and the watcher are outside
    the package; they are modelled as oracles of a [World], read at the
    call counter kept in the state, so that two successive calls to
    [time.Now] or [os.Stat] may answer differently. *)

From Stdlib Require Import ZArith List String Ascii Bool Lia Arith.
From Stdlib Require DecimalString.
Import ListNotations.

Local Open Scope string_scope.
Local Open Scope Z_scope.
Local Open Scope list_scope.

(* ================================================================== *)
(** ** Go values used by the package *)

(** [error] values are compared against [nil] only and printed with
    [Error()]; an error is represented by its message, [nil] by [None]. *)
Definition error := string.

(** [time.Time] as wall-clock nanoseconds, [time.Duration] as an int64
    count of nanoseconds. *)
Definition Time := Z.
Definition Duration := Z.

Definition maxDuration : Duration := 9223372036854775807.
Definition minDuration : Duration := -9223372036854775808.

(** [t.Sub(u)]: the difference, saturated to the range of [Duration]. *)
Definition Sub (t u : Time) : Duration :=
  let d := t - u in
  if d >? maxDuration then maxDuration
  else if d <? minDuration then minDuration
  else d.

(** [strconv.Itoa]. *)
Definition Itoa (n : Z) : string :=
  DecimalString.NilZero.string_of_int (Z.to_int n).

(* ------------------------------------------------------------------ *)
(** *** Slices

    A slice is modelled by the list of its elements.  Slicing outside
    [0..len] panics in Go; the slicing functions return [None] there. *)
Module Slice.
Section Ops.
Context {A : Type}.

(** [s[:i]] *)
Definition upto (i : nat) (s : list A) : option (list A) :=
  if (i <=? List.length s)%nat then Some (firstn i s) else None.

(** [s[i:]] *)
Definition from (i : nat) (s : list A) : option (list A) :=
  if (i <=? List.length s)%nat then Some (skipn i s) else None.

(** [s[i]] *)
Definition index (i : nat) (s : list A) : option A := nth_error s i.

(** [copy(dst, src)]: the contents of [dst] afterwards;
    [min (len dst) (len src)] elements are copied. *)
Definition copy (dst src : list A) : list A :=
  firstn (List.length dst) src ++ skipn (List.length src) dst.

(** The three statements that delete position [i] in
    [unfollowOldFiles]:
    [copy(s[i:], s[i+1:]); s[len(s)-1] = nil; s = s[:len(s)-1]].
    The slot that is cleared lies outside the slice once it is cut, so
    only the copy and the cut show in the resulting elements. *)
Definition delete_shift (i : nat) (s : list A) : option (list A) :=
  match from i s, from (S i) s with
  | Some dst, Some src =>
      let moved := firstn i s ++ copy dst src in
      upto (List.length moved - 1)%nat moved
  | _, _ => None
  end.
End Ops.
End Slice.

(* ------------------------------------------------------------------ *)
(** *** Regular expressions

    [regexp.Regexp] is a library type.  The model covers patterns made
    of a body with an optional [^] in front and an optional [$] at the
    end, matched by derivatives; [MatchString] looks for a match
    anywhere in the text, as the library does. *)
Inductive re : Type :=
| Void
| Eps
| AnyChar
| Chr (c : ascii)
| Cat (r s : re)
| Alt (r s : re)
| Star (r : re).

Fixpoint nullable (r : re) : bool :=
  match r with
  | Void => false
  | Eps => true
  | AnyChar => false
  | Chr _ => false
  | Cat r s => nullable r && nullable s
  | Alt r s => nullable r || nullable s
  | Star _ => true
  end.

Fixpoint deriv (a : ascii) (r : re) : re :=
  match r with
  | Void => Void
  | Eps => Void
  | AnyChar => Eps
  | Chr c => if Ascii.eqb a c then Eps else Void
  | Cat r s =>
      if nullable r then Alt (Cat (deriv a r) s) (deriv a s)
      else Cat (deriv a r) s
  | Alt r s => Alt (deriv a r) (deriv a s)
  | Star r => Cat (deriv a r) (Star r)
  end.

Fixpoint accepts (r : re) (s : string) : bool :=
  match s with
  | EmptyString => nullable r
  | String a s' => accepts (deriv a r) s'
  end.

(** The literal text [s] as an expression. *)
Fixpoint lit (s : string) : re :=
  match s with
  | EmptyString => Eps
  | String a s' => Cat (Chr a) (lit s')
  end.

Record Regexp : Type := mkRegexp {
  re_bol : bool;   (* the pattern starts with ^ *)
  re_body : re;
  re_eol : bool    (* the pattern ends with $ *)
}.

Definition MatchString (r : Regexp) (s : string) : bool :=
  let pre := if re_bol r then Eps else Star AnyChar in
  let post := if re_eol r then Eps else Star AnyChar in
  accepts (Cat pre (Cat (re_body r) post)) s.

(* ------------------------------------------------------------------ *)
(** *** [path/filepath] on a Unix system *)
Module filepath.

Definition is_sep (c : ascii) : bool := Ascii.eqb c "/"%char.

Fixpoint drop_while (p : ascii -> bool) (l : list ascii) : list ascii :=
  match l with
  | [] => []
  | c :: l' => if p c then drop_while p l' else l
  end.

Fixpoint take_while (p : ascii -> bool) (l : list ascii) : list ascii :=
  match l with
  | [] => []
  | c :: l' => if p c then c :: take_while p l' else []
  end.

(** The elements between separators, empty ones included. *)
Fixpoint split (l : list ascii) : list (list ascii) :=
  match l with
  | [] => [[]]
  | c :: l' =>
      if is_sep c then [] :: split l'
      else match split l' with
           | [] => [[c]]
           | e :: es => (c :: e) :: es
           end
  end.

Definition is_dot (e : list ascii) : bool :=
  match e with ["."%char] => true | _ => false end.

Definition is_dotdot (e : list ascii) : bool :=
  match e with ["."%char; "."%char] => true | _ => false end.

(** One element of the path against the elements kept so far (latest
    first): empty and [.] are dropped, [..] removes the element before
    it, stays when there is none to remove in a relative path, and is
    dropped at the root. *)
Definition clean_step (rooted : bool) (kept : list (list ascii))
           (e : list ascii) : list (list ascii) :=
  match e with
  | [] => kept
  | _ =>
      if is_dot e then kept
      else if is_dotdot e then
        match kept with
        | top :: below =>
            if is_dotdot top then e :: kept else below
        | [] => if rooted then kept else [e]
        end
      else e :: kept
  end.

Fixpoint join (es : list (list ascii)) : list ascii :=
  match es with
  | [] => []
  | [e] => e
  | e :: es' => e ++ "/"%char :: join es'
  end.

(** [filepath.Clean] *)
Definition Clean (path : string) : string :=
  let l := list_ascii_of_string path in
  match l with
  | [] => "."
  | c :: _ =>
      let rooted := is_sep c in
      let kept := fold_left (clean_step rooted) (split l) [] in
      let body := join (rev kept) in
      if rooted then string_of_list_ascii ("/"%char :: body)
      else match body with
           | [] => "."
           | _ => string_of_list_ascii body
           end
  end.

(** [filepath.Dir]: everything up to the last separator, cleaned. *)
Definition Dir (path : string) : string :=
  let r := rev (list_ascii_of_string path) in
  Clean (string_of_list_ascii (rev (drop_while (fun c => negb (is_sep c)) r))).

(** [filepath.Base]: the last element, trailing separators removed. *)
Definition Base (path : string) : string :=
  match path with
  | EmptyString => "."
  | _ =>
      let r := drop_while is_sep (rev (list_ascii_of_string path)) in
      match r with
      | [] => "/"
      | _ => string_of_list_ascii (rev (take_while (fun c => negb (is_sep c)) r))
      end
  end.

End filepath.

(* ================================================================== *)
(** ** Data model *)

(** [tail.SeekInfo] and the fields of [tail.Config] that [followFile]
    sets (the logger is the discarding one in both modes). *)
Record SeekInfo : Type := mkSeekInfo { Offset : Z; Whence : Z }.

Record Config : Type := mkConfig {
  cfg_Follow : bool;
  cfg_Location : option SeekInfo;
  cfg_Poll : bool
}.

(** Where the tail library starts to read a file of [size] bytes: at
    the start without a location, else where [Seek(Offset, Whence)]
    lands from position 0 (0: from the start, 1: from the current
    position, 2: from the end). *)
Definition start_offset (c : Config) (size : Z) : Z :=
  match cfg_Location c with
  | None => 0
  | Some loc =>
      if Whence loc =? 0 then Offset loc
      else if Whence loc =? 1 then 0 + Offset loc
      else size + Offset loc
  end.

(** [*tail.Tail]: the address stands for the pointer's identity. *)
Record Tail : Type := mkTail {
  tail_ptr : nat;
  Filename : string;
  tail_Config : Config
}.

(** [tail.Line], what the tailing unit sends on its [Lines] channel. *)
Record TailLine : Type := mkTailLine {
  tl_Text : string;
  tl_Time : Time;
  tl_Err : option error
}.

(** [eye.Line] *)
Record Line : Type := mkLine {
  Path : string;
  Text : string;
  LTime : Time;
  Err : option error
}.

Definition LineHandler := Line -> option error.

(** [os.FileInfo], the two methods the package calls. *)
Record FileInfo : Type := mkFileInfo {
  fi_Name : string;
  fi_ModTime : Time
}.

(** [fsnotify.Op] is a bit mask; the event loop compares it for
    equality with the single-bit values. *)
Module fsnotify.
Definition Create : Z := 1.
Definition Write : Z := 2.
Definition Remove : Z := 4.
Definition Rename : Z := 8.
Definition Chmod : Z := 16.
End fsnotify.

(** Modelled from the spec: [FileEvent] is declared with the watcher;
    it is a path and an operation, which the event loop reads as
    [event.Path] and [event.Op]. *)
Record FileEvent : Type := mkFileEvent {
  ev_Path : string;
  ev_Op : Z
}.

(** [TrailOptions]; a nil regexp is [None].  The logger is the trace
    [logged] of the state below. *)
Record TrailOptions : Type := mkTrailOptions {
  PollChanges : bool;
  FileReg : option Regexp;
  FileIgnoreReg : option Regexp;
  FileIgnoreDuration : Duration;
  FileFollowDuration : Duration;
  PathReg : option Regexp
}.

Inductive Level : Type := DebugLevel | InfoLevel | ErrorLevel.

(** The goroutine that [Follow] starts is the only receiver on the
    unbuffered channel [done]. *)
Inductive LoopState : Type := NotStarted | Running | Exited.

(** Modelled from the spec: of the [Watcher], [watch] begins emitting
    events and [end] stops emitting; the state records which of the two
    was called last. *)
Inductive WatcherState : Type := Idle | Watching | Ended.

(** The [Trail] struct together with the traces of what the package
    did to its collaborators. *)
Record Trail : Type := mkTrail {
  options : TrailOptions;
  tails : list Tail;
  watcher : WatcherState;
  done : LoopState;
  (* traces *)
  calls : nat;                       (* oracle calls made so far *)
  allocated : nat;                   (* tailers created so far *)
  stopped : list nat;                (* [Stop()] calls, by tailer *)
  logged : list (Level * string);    (* lines given to the logger *)
  handled : list Line                (* handler invocations *)
}.

(** Modelled from the spec: the [Watcher] interface is declared in a
    file of the package that is not at hand.  Its
    [walk() -> ([]path, error)] is the initial listing; what it answers
    is read at the number of the call, like the other oracles. *)
Record Watcher : Type := mkWatcher {
  walk_result : nat -> list string * option error
}.

(** The collaborators outside the package: the clock, the file system,
    the tail library and the watcher. *)
Record World : Type := mkWorld {
  time_Now : nat -> Time;
  os_Stat : nat -> string -> FileInfo + error;
  tail_TailFile : nat -> string -> Config -> option error;
  the_watcher : Watcher
}.

Definition watcher_Walk (w : World) (k : nat) : list string * option error :=
  walk_result (the_watcher w) k.

(* ================================================================== *)
(** ** The monad of the package's methods *)

Inductive res (A : Type) : Type :=
| Ret (a : A) (t : Trail)     (* returned [a], state [t] *)
| Panic                       (* run-time panic *)
| Blocked (t : Trail)         (* blocked for ever on a channel, in [t] *)
| OutOfFuel.                  (* the loop bound of the model ran out *)
Arguments Ret {A} a t.
Arguments Panic {A}.
Arguments Blocked {A} t.
Arguments OutOfFuel {A}.

Definition M (A : Type) : Type := Trail -> res A.

Definition ret {A} (a : A) : M A := fun t => Ret a t.

Definition bind {A B} (c : M A) (k : A -> M B) : M B :=
  fun t =>
    match c t with
    | Ret a t' => k a t'
    | Panic => Panic
    | Blocked t' => Blocked t'
    | OutOfFuel => OutOfFuel
    end.

Declare Scope trail_scope.
Delimit Scope trail_scope with trail.
Notation "x <- c ;; k" := (bind c (fun x => k))
  (at level 61, c at next level, right associativity) : trail_scope.
Notation "c ;; k" := (bind c (fun _ => k))
  (at level 61, right associativity) : trail_scope.
Local Open Scope trail_scope.

Definition panic {A} : M A := fun _ => Panic.

(** A value that must be there, else the access panics. *)
Definition must {A} (o : option A) : M A :=
  match o with Some a => ret a | None => panic end.

Definition get_tails : M (list Tail) := fun t => Ret (tails t) t.

Definition set_tails (l : list Tail) : M unit := fun t =>
  Ret tt (mkTrail (options t) l (watcher t) (done t) (calls t)
            (allocated t) (stopped t) (logged t) (handled t)).

Definition get_options : M TrailOptions := fun t => Ret (options t) t.

Definition set_watcher (s : WatcherState) : M unit := fun t =>
  Ret tt (mkTrail (options t) (tails t) s (done t) (calls t)
            (allocated t) (stopped t) (logged t) (handled t)).

Definition set_done (s : LoopState) : M unit := fun t =>
  Ret tt (mkTrail (options t) (tails t) (watcher t) s (calls t)
            (allocated t) (stopped t) (logged t) (handled t)).

(** One more oracle call made. *)
Definition tick (t : Trail) : Trail :=
  mkTrail (options t) (tails t) (watcher t) (done t) (S (calls t))
    (allocated t) (stopped t) (logged t) (handled t).

Definition log (lv : Level) (msg : string) : M unit := fun t =>
  Ret tt (mkTrail (options t) (tails t) (watcher t) (done t) (calls t)
            (allocated t) (stopped t) (logged t ++ [(lv, msg)]) (handled t)).

Definition Debugln := log DebugLevel.
Definition Infoln := log InfoLevel.
Definition Errorln := log ErrorLevel.

(** [current.Stop()] *)
Definition Stop (current : Tail) : M unit := fun t =>
  Ret tt (mkTrail (options t) (tails t) (watcher t) (done t) (calls t)
            (allocated t) (stopped t ++ [tail_ptr current]) (logged t)
            (handled t)).

(** [handler(line)] *)
Definition call (handler : LineHandler) (line : Line) : M (option error) :=
  fun t =>
    Ret (handler line)
        (mkTrail (options t) (tails t) (watcher t) (done t) (calls t)
           (allocated t) (stopped t) (logged t) (handled t ++ [line])).

(** [for _, x := range l { body x }] *)
Fixpoint for_each {A} (l : list A) (body : A -> M unit) : M unit :=
  match l with
  | [] => ret tt
  | x :: l' => body x ;; for_each l' body
  end.

(** [for i, x := range l { body i x }], counting from [i]. *)
Fixpoint for_range {A} (i : nat) (l : list A) (body : nat -> A -> M unit)
  : M unit :=
  match l with
  | [] => ret tt
  | x :: l' => body i x ;; for_range (S i) l' body
  end.

Section Program.
Variable w : World.

(** [time.Now()] *)
Definition Now : M Time := fun t => Ret (time_Now w (calls t)) (tick t).

(** [os.Stat(path)] *)
Definition Stat (path : string) : M (FileInfo + error) :=
  fun t => Ret (os_Stat w (calls t) path) (tick t).

(** [t.watcher.Walk()] *)
Definition Walk : M (list string * option error) :=
  fun t => Ret (watcher_Walk w (calls t)) (tick t).

(** [tail.TailFile(path, config)]: a new tailer, or the error. *)
Definition TailFile (path : string) (c : Config) : M (Tail + error) :=
  fun t =>
    match tail_TailFile w (calls t) path c with
    | Some e => Ret (inr e) (tick t)
    | None =>
        Ret (inl (mkTail (allocated t) path c))
            (mkTrail (options t) (tails t) (watcher t) (done t)
               (S (calls t)) (S (allocated t)) (stopped t) (logged t)
               (handled t))
    end.

(* ---------------------------------------------------------------- *)
(** *** trail.go *)

Definition defaultOptions : TrailOptions :=
  mkTrailOptions false None None 0 0 None.

Definition NewTrail : Trail :=
  mkTrail defaultOptions [] Idle NotStarted 0%nat 0%nat [] [] [].

Definition NewTrailWithOptions (opts : TrailOptions) : Trail :=
  let defaults :=
    mkTrailOptions (PollChanges opts) (FileReg opts) (FileIgnoreReg opts)
      (FileIgnoreDuration opts) (FileFollowDuration opts) (PathReg opts) in
  mkTrail defaults [] Idle NotStarted 0%nat 0%nat [] [] [].

Definition isOldToIgnore (path : string) : M bool :=
  r <- Stat path ;;
  match r with
  | inl info =>
      n <- Now ;;
      o <- get_options ;;
      ret (Sub n (fi_ModTime info) >? FileIgnoreDuration o)
  | inr err =>
      Errorln ("failed to get file info. " ++ err)%string ;;
      ret false
  end.

(** [x != nil && !x.MatchString(s)] *)
Definition set_and_no_match (x : option Regexp) (s : string) : bool :=
  match x with Some r => negb (MatchString r s) | None => false end.

(** [x != nil && x.MatchString(s)] *)
Definition set_and_match (x : option Regexp) (s : string) : bool :=
  match x with Some r => MatchString r s | None => false end.

(** [ignore]; [||] evaluates its right operand only when the left one
    is false, so the file is stat'ed only when no pattern decides. *)
Definition ignore (path : string) : M bool :=
  o <- get_options ;;
  if set_and_no_match (PathReg o) (filepath.Dir path) then ret true
  else if set_and_no_match (FileReg o) (filepath.Base path) then ret true
  else if set_and_match (FileIgnoreReg o) (filepath.Base path) then ret true
  else isOldToIgnore path.

(** The configuration of the tailer in the two modes of [followFile]. *)
Definition tailConfig (poll isNew : bool) : Config :=
  if isNew then mkConfig true None poll
  else mkConfig true (Some (mkSeekInfo 0 2)) poll.

(** [followFile].  The goroutine it starts is run here up to the point
    where it has put its tailer into [t.tails]; what it does next, the
    loop over the tailer's lines, is [followLines]. *)
Definition followFile (path : string) (handler : LineHandler)
           (isNew : bool) : M unit :=
  Debugln ("Following: " ++ path)%string ;;
  o <- get_options ;;
  (if PollChanges o then Debugln "Polling enabled" else ret tt) ;;
  r <- TailFile path (tailConfig (PollChanges o) isNew) ;;
  match r with
  | inr _ => ret tt
  | inl current =>
      l <- get_tails ;;
      set_tails (l ++ [current])
  end.

(** [for line := range current.Lines { ... handler(newLine) }] over
    the lines the tailer sends before it closes the channel. *)
Definition followLines (path : string) (handler : LineHandler)
           (lines : list TailLine) : M unit :=
  for_each lines (fun line =>
    let newLine := mkLine path (tl_Text line) (tl_Time line) (tl_Err line) in
    _ <- call handler newLine ;;
    ret tt).

Definition unfollowFile (name : string) : M (option error) :=
  snapshot <- get_tails ;;
  for_range 0 snapshot (fun i tail =>
    if String.eqb (Filename tail) name then
      Stop tail ;;
      cur <- get_tails ;;
      a <- must (Slice.upto i cur) ;;
      b <- must (Slice.from i cur) ;;
      set_tails (a ++ b)
    else ret tt) ;;
  ret None.

Definition isOlderThanADay (tm : Time) : M bool :=
  n <- Now ;;
  o <- get_options ;;
  ret (Sub n tm >? FileFollowDuration o).

(** The loop [for i < len(t.tails)] of [unfollowOldFiles]; [fuel]
    bounds the number of iterations. *)
Fixpoint sweep (fuel : nat) (i : nat) : M unit :=
  cur <- get_tails ;;
  if (i <? List.length cur)%nat then
    match fuel with
    | O => fun _ => OutOfFuel
    | S fuel' =>
        ti <- must (Slice.index i cur) ;;
        r <- Stat (Filename ti) ;;
        match r with
        | inl info =>
            old <- isOlderThanADay (fi_ModTime info) ;;
            if old then
              Debugln ("unfollow: " ++ fi_Name info)%string ;;
              Stop ti ;;
              l <- must (Slice.delete_shift i cur) ;;
              set_tails l ;;
              sweep fuel' i
            else
              Debugln ("follow: " ++ fi_Name info)%string ;;
              sweep fuel' (S i)
        | inr err =>
            Errorln ("failed to get file info. " ++ err)%string ;;
            sweep fuel' i
        end
    end
  else ret tt.

Definition unfollowOldFiles (fuel : nat) : M (option error) :=
  Debugln "starting...unfollow old files" ;;
  sweep fuel 0 ;;
  Debugln "unfollow completed. " ;;
  l <- get_tails ;;
  for_each l (fun tail => Debugln ("following: " ++ Filename tail)%string) ;;
  ret None.

(** [task]; [fuel] bounds the loop of the sweep it runs. *)
Definition task (fuel : nat) : M unit :=
  Debugln "task running..." ;;
  _ <- unfollowOldFiles fuel ;;
  ret tt.

(** [AddUnfollower]: two lines to the log, then the scheduler runs
    [task] every ten seconds, and the receive on the channel of
    [s.Start()] keeps the caller for ever, as nothing stops the
    scheduler.  [ticks] is how often the scheduler has fired by the
    time the state is looked at, [show] stands for [Duration.String]. *)
Definition AddUnfollower (show : Duration -> string) (ticks fuel : nat)
  : M unit :=
  Infoln "added Old File Unfollower." ;;
  o <- get_options ;;
  Infoln ("File Follow Duration: " ++ show (FileFollowDuration o))%string ;;
  for_each (repeat tt ticks) (fun _ => task fuel) ;;
  fun t => Blocked t.

(** The event loop of [Follow], branch [case event := <-events]. *)
Definition eventLoop_event (handler : LineHandler) (event : FileEvent)
  : M unit :=
  ig <- ignore (ev_Path event) ;;
  if ig then ret tt
  else if ev_Op event =? fsnotify.Create then
    Debugln ("Created: " ++ ev_Path event)%string ;;
    followFile (ev_Path event) handler true
  else if ev_Op event =? fsnotify.Remove then
    Debugln ("Removed: " ++ ev_Path event)%string ;;
    _ <- unfollowFile (ev_Path event) ;;
    ret tt
  else if ev_Op event =? fsnotify.Rename then
    Debugln ("Renamed: " ++ ev_Path event)%string
  else if ev_Op event =? fsnotify.Write then
    Debugln ("Write: " ++ ev_Path event)%string
  else
    Debugln ("Event " ++ Itoa (ev_Op event) ++ ": " ++ ev_Path event)%string.

(** The event loop of [Follow], branch [case <-t.done]. *)
Definition eventLoop_done : M unit :=
  set_watcher Ended ;;
  l <- get_tails ;;
  for_each l Stop ;;
  set_done Exited.

Definition Follow (handler : LineHandler) : M (option error) :=
  Infoln "Sauron is now watching" ;;
  r <- Walk ;;
  match snd r with
  | Some err =>
      Errorln "Failed to walk directory" ;;
      ret (Some err)
  | None =>
      for_each (fst r) (fun file =>
        ig <- ignore file ;;
        if ig then ret tt else followFile file handler false) ;;
      set_done Running ;;
      set_watcher Watching ;;
      ret None
  end.

(** [t.done <- true]: the send completes when the event loop receives
    it, and the loop then runs its shutdown branch; without a
    receiver the sender stays blocked. *)
Definition send_done : M unit := fun t =>
  match done t with
  | Running => eventLoop_done t
  | NotStarted | Exited => Blocked t
  end.

Definition End : M unit :=
  Infoln "Stopping..." ;;
  send_done.

End Program.

(* ================================================================== *)
(** ** Observations on results *)

Definition value {A} (r : res A) : option A :=
  match r with Ret a _ => Some a | _ => None end.

Definition final {A} (r : res A) : option Trail :=
  match r with Ret _ t => Some t | _ => None end.

(** [t] with other options, the rest as it is. *)
Definition with_options (o : TrailOptions) (t : Trail) : Trail :=
  mkTrail o (tails t) (watcher t) (done t) (calls t) (allocated t)
    (stopped t) (logged t) (handled t).

(** [t] with another pool, the rest as it is. *)
Definition with_tails (l : list Tail) (t : Trail) : Trail :=
  mkTrail (options t) l (watcher t) (done t) (calls t) (allocated t)
    (stopped t) (logged t) (handled t).

(** [t'] differs from [t] at most in the number of oracle calls and in
    the log. *)
Definition quiet (t t' : Trail) : Prop :=
  options t' = options t /\ tails t' = tails t /\ watcher t' = watcher t /\
  done t' = done t /\ allocated t' = allocated t /\
  stopped t' = stopped t /\ handled t' = handled t.

(* ================================================================== *)
(** ** The ignore policy *)

(** The four rules of the policy, read off the state and the world at
    the moment [ignore] is called. *)
Section Rules.
Variables (w : World) (t : Trail) (path : string).

Definition rule_path : Prop :=
  exists r, PathReg (options t) = Some r /\
            MatchString r (filepath.Dir path) = false.

Definition rule_file : Prop :=
  exists r, FileReg (options t) = Some r /\
            MatchString r (filepath.Base path) = false.

Definition rule_exclude : Prop :=
  exists r, FileIgnoreReg (options t) = Some r /\
            MatchString r (filepath.Base path) = true.

Definition rule_age : Prop :=
  exists info, os_Stat w (calls t) path = inl info /\
    Sub (time_Now w (S (calls t))) (fi_ModTime info)
      > FileIgnoreDuration (options t).
End Rules.

(** The patterns of the policy example: [/app/logs], [\.log$], [\.tmp$]. *)
Definition re_app_logs : Regexp := mkRegexp false (lit "/app/logs") false.
Definition re_log : Regexp := mkRegexp false (lit ".log") true.
Definition re_tmp : Regexp := mkRegexp false (lit ".tmp") true.

Definition policy_example (poll : bool) (ign fol : Duration) : TrailOptions :=
  mkTrailOptions poll (Some re_log) (Some re_tmp) ign fol (Some re_app_logs).


(** A trail set up with the policy example, whatever the rest. *)
Definition policy_trail (poll : bool) (ign fol : Duration) : Trail :=
  NewTrailWithOptions (policy_example poll ign fol).

(** A world in which no file can be stat'ed; the clock stands at [now],
    tailers open and the watched directory lists [files]. *)
Definition world_without_files (now : Time) (files : list string) : World :=
  mkWorld (fun _ => now)
          (fun _ p => inr ("stat " ++ p ++ ": no such file or directory")%string)
          (fun _ _ _ => None)
          (mkWatcher (fun _ => (files, None))).

(** A world in which every file was last modified at [mtime]. *)
Definition world_with_mtime (now mtime : Time) (files : list string) : World :=
  mkWorld (fun _ => now)
          (fun _ p => inl (mkFileInfo (filepath.Base p) mtime))
          (fun _ _ _ => None)
          (mkWatcher (fun _ => (files, None))).

(* ================================================================== *)
(** ** Vocabulary of the statements *)

(** [t] after [Stop()] on each of [l], in order. *)
Definition stop_all (l : list Tail) (t : Trail) : Trail :=
  mkTrail (options t) (tails t) (watcher t) (done t) (calls t) (allocated t)
    (stopped t ++ map tail_ptr l) (logged t) (handled t).

(** [t] after the handler was given each of [ls], in order. *)
Definition deliver (ls : list Line) (t : Trail) : Trail :=
  mkTrail (options t) (tails t) (watcher t) (done t) (calls t) (allocated t)
    (stopped t) (logged t) (handled t ++ ls).

(** The [eye.Line] that [followFile] makes of a line of the tailer of
    [path]. *)
Definition toLine (path : string) (line : TailLine) : Line :=
  mkLine path (tl_Text line) (tl_Time line) (tl_Err line).

(** The handles of the pool that follow [name]. *)
Definition handles_of (name : string) (l : list Tail) : list Tail :=
  filter (fun tl => String.eqb (Filename tl) name) l.

(** No path is followed by two handles of the pool. *)
Definition one_handle_per_path (l : list Tail) : Prop :=
  NoDup (map Filename l).

(** The two modes of a Follower. *)
Definition existing_mode (tl : Tail) : Prop :=
  cfg_Location (tail_Config tl) = Some (mkSeekInfo 0 2) /\
  forall size, start_offset (tail_Config tl) size = size.

Definition new_mode (tl : Tail) : Prop :=
  cfg_Location (tail_Config tl) = None /\
  forall size, start_offset (tail_Config tl) size = 0.

(** What the goroutine of [followFile] adds to the pool of [t]: the new
    tailer, or nothing when the tail library refuses the file. *)
Definition opened (w : World) (t : Trail) (path : string) (isNew : bool)
  : list Tail :=
  let c := tailConfig (PollChanges (options t)) isNew in
  match tail_TailFile w (calls t) path c with
  | None => [mkTail (allocated t) path c]
  | Some _ => []
  end.

(** The options, the loop, the watcher and the two traces of stops and
    of handler calls are as before. *)
Definition same_control (t t' : Trail) : Prop :=
  options t' = options t /\ watcher t' = watcher t /\ done t' = done t /\
  stopped t' = stopped t /\ handled t' = handled t.

Definition create_event (path : string) : FileEvent :=
  mkFileEvent path fsnotify.Create.

Definition remove_event (path : string) : FileEvent :=
  mkFileEvent path fsnotify.Remove.

(** A handler that accepts every line, and one that fails on each. *)
Definition accept_all : LineHandler := fun _ => None.
Definition reject_all : LineHandler := fun _ => Some "handler failed".

(** A trail that ignores files older than an hour and unfollows at
    once, and a world whose clock stands ten nanoseconds after every
    file's last modification. *)
Definition hour : Duration := 3600000000000.

Definition sample_trail : Trail :=
  NewTrailWithOptions (mkTrailOptions false None None hour 0 None).

Definition fresh_world : World := world_with_mtime 1000 990 [].

Definition current_log : string := "/var/log/app/current.log".

(** The files of the pool can be stat'ed and are older than the
    threshold, whenever the sweep looks. *)
Definition all_stale (w : World) (limit : Duration) (l : list Tail) : Prop :=
  forall tl, In tl l -> forall k, exists info,
    os_Stat w k (Filename tl) = inl info /\
    forall k', (Sub (time_Now w k') (fi_ModTime info) >? limit) = true.


(** [t] with one more line in the log. *)
Definition logged_more (e : Level * string) (t : Trail) : Trail :=
  mkTrail (options t) (tails t) (watcher t) (done t) (calls t) (allocated t)
    (stopped t) (logged t ++ [e]) (handled t).

(** The pool that holds one handle, for [current_log], opened in
    existing mode. *)
Definition current_handle : Tail :=
  mkTail 0 current_log (tailConfig false false).

Definition following_current : Trail :=
  with_tails [current_handle] sample_trail.

(** A directory that lists [current_log], written to ten nanoseconds
    ago. *)
Definition app_dir : World := world_with_mtime 1000 990 [current_log].

(** What the tail library sends when it throttles a busy file, and an
    ordinary line after it. *)
Definition throttled : TailLine :=
  mkTailLine "Too much log activity; waiting a second before resuming tailing"
    5 (Some "Too much log activity; waiting a second before resuming tailing").

Definition hello : TailLine := mkTailLine "hello" 6 None.

(** A watched directory that cannot be listed. *)
Definition broken_dir : World :=
  mkWorld (fun _ => 0)
          (fun _ _ => inr "gone"%string)
          (fun _ _ _ => None)
          (mkWatcher (fun _ => ([], Some "no such directory"%string))).

(** A world in which every file was last written to two hours ago. *)
Definition stale_world : World := world_with_mtime (3 * hour) hour [].

(** A world whose files carry a modification time ahead of the clock. *)
Definition skewed_world : World := world_with_mtime 1000 2000 [].

From Stdlib Require DecimalPos DecimalZ.

(* ================================================================== *)
(** ** The event loop over a run of events, and steady worlds *)

(** The loop [for { select { case event := <-events: ... } }] of
    [Follow] over the events it receives before the shutdown signal. *)
Definition eventLoop (w : World) (handler : LineHandler)
           (events : list FileEvent) : M unit :=
  for_each events (eventLoop_event w handler).

(** A world that answers the same whenever it is asked: the clock
    stands, files do not change and the tail library does not change
    its mind. *)
Definition steady (w : World) : Prop :=
  forall k,
    time_Now w k = time_Now w 0 /\
    (forall path, os_Stat w k path = os_Stat w 0 path) /\
    (forall path c, tail_TailFile w k path c = tail_TailFile w 0 path c).

(** The age test of [isOldToIgnore] and [isOlderThanADay] in a steady
    world. *)
Definition old_now (w : World) (limit : Duration) (path : string) : bool :=
  match os_Stat w 0 path with
  | inl info => Sub (time_Now w 0) (fi_ModTime info) >? limit
  | inr _ => false
  end.



(** Handles for [paths], created one after the other from [n] on. *)
Fixpoint handles_from (n : nat) (c : Config) (paths : list string)
  : list Tail :=
  match paths with
  | [] => []
  | p :: ps => mkTail n p c :: handles_from (S n) c ps
  end.

(** What [followFile] logs before it opens the file. *)
Definition follow_log (o : TrailOptions) (path : string)
  : list (Level * string) :=
  (DebugLevel, ("Following: " ++ path)%string)
    :: (if PollChanges o then [(DebugLevel, "Polling enabled")] else []).

(** The [Create] events among [events]. *)
Definition creates (events : list FileEvent) : list FileEvent :=
  filter (fun ev => ev_Op ev =? fsnotify.Create) events.

(** An event that carries the bits of [Create] and [Write] together. *)
Definition create_and_write (path : string) : FileEvent :=
  mkFileEvent path (Z.lor fsnotify.Create fsnotify.Write).

(** A world like [fresh_world] in which the tail library refuses every
    file. *)
Definition refusing_world : World :=
  mkWorld (fun _ => 1000)
          (fun _ p => inl (mkFileInfo (filepath.Base p) 990))
          (fun _ _ _ => Some "too many open files"%string)
          (mkWatcher (fun _ => ([current_log], None))).

(** In a steady world: the file of the handle is older than the limit
    of the sweep, and the listed file gets a follower at [Follow]. *)
Definition stale (w : World) (o : TrailOptions) (tl : Tail) : bool :=
  old_now w (FileFollowDuration o) (Filename tl).


(** A directory with a log that was written to a moment ago and one
    that was written to two hours ago; the clock stands at three
    hours. *)
Definition two_logs : World :=
  mkWorld (fun _ => 3 * hour)
          (fun _ p =>
             if String.eqb p "/var/log/app/old.log"
             then inl (mkFileInfo (filepath.Base p) hour)
             else inl (mkFileInfo (filepath.Base p) (3 * hour - 10)))
          (fun _ _ _ => None)
          (mkWatcher (fun _ => (["/var/log/app/old.log"%string; current_log],
                                None))).

(** A trail that ignores files older than a day and unfollows files
    older than an hour. *)
Definition hourly_trail : Trail :=
  NewTrailWithOptions (mkTrailOptions false None None (24 * hour) hour None).

(** [hourly_trail] with a handle for each of the two logs. *)
Definition two_followed : Trail :=
  with_tails (handles_from 0 (tailConfig false false)
                ["/var/log/app/old.log"%string; current_log])
             hourly_trail.

(** The directory of [two_logs] after [current_log] was deleted. *)
Definition one_gone : World :=
  mkWorld (fun _ => 3 * hour)
          (fun _ p =>
             if String.eqb p current_log
             then inr "stat /var/log/app/current.log: no such file or directory"%string
             else inl (mkFileInfo (filepath.Base p) (3 * hour - 10)))
          (fun _ _ _ => None)
          (mkWatcher (fun _ => (["/var/log/app/old.log"%string], None))).

(* ================================================================== *)
(** ** Package [console]: console/action.go *)

(** [filepath.Ext]: the suffix of the last element of the path from its
    last dot on, empty when that element has no dot. *)
Fixpoint ext_rev (r : list ascii) (acc : list ascii) : list ascii :=
  match r with
  | [] => []
  | c :: r' =>
      if filepath.is_sep c then []
      else if Ascii.eqb c "."%char then c :: acc
      else ext_rev r' (c :: acc)
  end.

Definition filepath_Ext (path : string) : string :=
  string_of_list_ascii (ext_rev (rev (list_ascii_of_string path)) []).

Module console.

(** The [watch] section of the configuration; the two durations are
    the [Duration] inside the wrapper type [duration]. *)
Record watch : Type := mkwatch {
  Paths : list string;
  FilePattern : string;
  FileIgnorePattern : string;
  IgnoreDuration : Duration;       (* FileIgnoreDuration.Duration *)
  FollowDuration : Duration;       (* FileFollowDuration.Duration *)
  PathPattern : string;
  LinePattern : string;
  LineIgnorePattern : string;
  Out : string;
  Desc : string
}.

Record Config : Type := mkConf {
  Watch : list watch;
  Log : string;
  Pool : bool;
  LogLevel : string;
  PrefixTime : bool;
  PrefixPath : bool
}.

(** What the [cli.Context] answers to the look-ups the package makes. *)
Record Context : Type := mkContext {
  String_conf : string;          (* c.String("conf") *)
  IsSet_pool : bool;             (* c.IsSet("pool") *)
  Bool_pool : bool;              (* c.Bool("pool") *)
  BoolT_prefix_path : bool;      (* c.BoolT("prefix-path") *)
  Bool_prefix_time : bool        (* c.Bool("prefix-time") *)
}.

(** The libraries the package calls.  [toml.DecodeFile] gives what it
    left in [conf] and its error; [WriteString] answers by the number
    of the call. *)
Record Env : Type := mkEnv {
  regexp_Compile : string -> Regexp + error;
  Time_Format : Time -> string;
  File_WriteString : nat -> string -> option error;
  toml_DecodeFile : string -> Config * option error
}.

(** The package variable [logger], nil until [setLogger] has run, with
    the lines it was given; the lines given to the standard logger of
    logrus; the strings passed to [outLog.WriteString] and to
    [fmt.Println], in order. *)
Record State : Type := mkState {
  logger : option (list (Level * string));
  stdlog : list (Level * string);
  outLog : list string;
  stdout : list string;
  writes : nat
}.

(** [None] is a run-time panic. *)
Definition C (A : Type) : Type := State -> option (A * State).

Definition cret {A} (a : A) : C A := fun s => Some (a, s).

Definition cbind {A B} (c : C A) (k : A -> C B) : C B :=
  fun s => match c s with Some (a, s') => k a s' | None => None end.

Declare Scope console_scope.
Notation "x <- c ;; k" := (cbind c (fun x => k))
  (at level 61, c at next level, right associativity) : console_scope.
Notation "c ;; k" := (cbind c (fun _ => k))
  (at level 61, right associativity) : console_scope.
Local Open Scope console_scope.

(** A method of [*logrus.Logger] on the package variable: it reads a
    field of the logger first, which panics on the nil pointer. *)
Definition logln (lv : Level) (msg : string) : C unit := fun s =>
  match logger s with
  | None => None
  | Some l =>
      Some (tt, mkState (Some (l ++ [(lv, msg)])) (stdlog s) (outLog s)
                  (stdout s) (writes s))
  end.

Definition Errorln := logln ErrorLevel.
Definition Debugln := logln DebugLevel.

(** [outLog.WriteString(text)] *)
Definition WriteString (e : Env) (text : string) : C (option error) :=
  fun s =>
    Some (File_WriteString e (writes s) text,
          mkState (logger s) (stdlog s) (outLog s ++ [text]) (stdout s)
            (S (writes s))).

(** [fmt.Println(text)] *)
Definition Println (text : string) : C unit := fun s =>
  Some (tt, mkState (logger s) (stdlog s) (outLog s) (stdout s ++ [text])
              (writes s)).

(** [logrus.Errorln(err)], on the standard logger. *)
Definition std_Errorln (msg : string) : C unit := fun s =>
  Some (tt, mkState (logger s) (stdlog s ++ [(ErrorLevel, msg)]) (outLog s)
              (stdout s) (writes s)).

Definition newline : string := String (ascii_of_nat 10) EmptyString.

Definition write (e : Env) (output : string) (line : Line) : C unit :=
  let output := (output ++ Text line)%string in
  r <- WriteString e (output ++ newline)%string ;;
  match r with
  | Some err => Errorln err
  | None => cret tt
  end.

(** [output += "[" + x + "] "] *)
Definition bracket (output x : string) : string :=
  (output ++ "[" ++ x ++ "] ")%string.

Definition getHandler (e : Env) (c : Context)
           (lineReg ignoreReg : option Regexp) (w : watch)
  : Line -> C (option error) :=
  fun line =>
    if set_and_match ignoreReg (Text line) then cret None
    else
      let output := "" in
      let output :=
        if BoolT_prefix_path c then bracket output (Path line) else output in
      let output :=
        if Bool_prefix_time c
        then bracket output (Time_Format e (LTime line)) else output in
      let output :=
        if negb (String.eqb (Desc w) "") then bracket output (Desc w)
        else output in
      match lineReg with
      | Some r =>
          (if MatchString r (Text line) then write e output line
           else cret tt) ;;
          cret None
      | None =>
          write e output line ;;
          cret None
      end.

Definition setConfig (e : Env) (c : Context) : C (Config * bool) :=
  let conf := fst (toml_DecodeFile e (String_conf c)) in
  match snd (toml_DecodeFile e (String_conf c)) with
  | Some err =>
      Errorln err ;;
      cret (conf, false)
  | None =>
      let conf :=
        if IsSet_pool c
        then mkConf (Watch conf) (Log conf) (Bool_pool c) (LogLevel conf)
               (PrefixTime conf) (PrefixPath conf)
        else conf in
      let conf :=
        if (String.length (LogLevel conf) =? 0)%nat
        then mkConf (Watch conf) (Log conf) (Pool conf) "info"
               (PrefixTime conf) (PrefixPath conf)
        else conf in
      cret (conf, true)
  end.

(** [d, _ := time.ParseDuration("24h"); d * 7] *)
Definition sevenDays : Duration := 24 * 3600000000000 * 7.

(** The part of the loop of [MainAction] over [conf.Watch] that fills
    in [options], the one [TrailOptions] value shared by all rounds of
    the loop, and compiles the two line patterns, which are variables
    of the round. *)
Definition watchSetup (e : Env) (options : TrailOptions) (w : watch)
  : C (TrailOptions * option Regexp * option Regexp) :=
  fileReg <-
    (if (0 <? String.length (FilePattern w))%nat then
       match regexp_Compile e (FilePattern w) with
       | inl r => Debugln "FilePatternRegex created" ;; cret (Some r)
       | inr err => Errorln err ;; cret (FileReg options)
       end
     else cret (FileReg options)) ;;
  fileIgnoreReg <-
    (if (0 <? String.length (FileIgnorePattern w))%nat then
       match regexp_Compile e (FileIgnorePattern w) with
       | inl r => cret (Some r)
       | inr err => Errorln err ;; cret (FileIgnoreReg options)
       end
     else cret (FileIgnoreReg options)) ;;
  let ignoreDuration :=
    if IgnoreDuration w >? 0 then IgnoreDuration w else sevenDays in
  let followDuration :=
    if FollowDuration w >? 0 then FollowDuration w else sevenDays in
  pathReg <-
    (if (0 <? String.length (PathPattern w))%nat then
       match regexp_Compile e (PathPattern w) with
       | inl r => cret (Some r)
       | inr err => Errorln err ;; cret (PathReg options)
       end
     else cret (PathReg options)) ;;
  lineReg <-
    (if (0 <? String.length (LinePattern w))%nat then
       match regexp_Compile e (LinePattern w) with
       | inl r => cret (Some r)
       | inr err => Errorln err ;; cret None
       end
     else cret None) ;;
  ignoreReg <-
    (if (0 <? String.length (LineIgnorePattern w))%nat then
       match regexp_Compile e (LineIgnorePattern w) with
       | inl r => cret (Some r)
       | inr err => Errorln err ;; cret None
       end
     else cret None) ;;
  cret (mkTrailOptions (PollChanges options) fileReg fileIgnoreReg
          ignoreDuration followDuration pathReg,
        lineReg, ignoreReg).

(** The rounds of the loop one after the other: what each round hands
    to [NewTrailWithOptions] and to [getHandler]. *)
Fixpoint watchSetups (e : Env) (options : TrailOptions) (ws : list watch)
  : C (list (TrailOptions * option Regexp * option Regexp)) :=
  match ws with
  | [] => cret []
  | w :: ws' =>
      r <- watchSetup e options w ;;
      rs <- watchSetups e (fst (fst r)) ws' ;;
      cret (r :: rs)
  end.

Definition bToMb (b : Z) : Z := b / 1024 / 1024.

End console.

(** The second version of console/action.go among the sources. *)
Module console_old.

Record watch : Type := mkwatch {
  Paths : list string;
  ExtPattern : string;
  LinePattern : string;
  Out : string;
  Desc : string
}.

Fixpoint contains (s : list string) (substr : string) : bool :=
  match s with
  | [] => false
  | v :: s' => if String.eqb v substr then true else contains s' substr
  end.

(** [write] of this version prints the line as well, and its errors go
    to the standard logger. *)
Definition write (e : console.Env) (output : string) (line : Line)
  : console.C unit :=
  let output := (output ++ Text line)%string in
  console.cbind (console.Println output) (fun _ =>
  console.cbind (console.WriteString e (output ++ console.newline)%string)
    (fun r =>
       match r with
       | Some err => console.std_Errorln err
       | None => console.cret tt
       end)).

Definition getHandler (e : console.Env) (c : console.Context)
           (extReg lineReg : option Regexp) (w : watch)
  : Line -> console.C (option error) :=
  fun line =>
    if set_and_no_match extReg (filepath_Ext (Path line)) then
      console.cret None
    else
      let output := "" in
      let output :=
        if console.BoolT_prefix_path c
        then console.bracket output (Path line) else output in
      let output :=
        if console.Bool_prefix_time c
        then console.bracket output (console.Time_Format e (LTime line))
        else output in
      let output :=
        if negb (String.eqb (Desc w) "") then console.bracket output (Desc w)
        else output in
      console.cbind
        (if set_and_match lineReg (Text line) then write e output line
         else write e output line)
        (fun _ => console.cret None).

End console_old.

(** Vocabulary for the handler: the prefix of a written line, and
    whether a line passes the two line patterns. *)
Definition line_prefix (e : console.Env) (c : console.Context)
           (desc : string) (line : Line) : string :=
  ((if console.BoolT_prefix_path c then "[" ++ Path line ++ "] " else "")
   ++ (if console.Bool_prefix_time c
       then "[" ++ console.Time_Format e (LTime line) ++ "] " else "")
   ++ (if String.eqb desc "" then "" else "[" ++ desc ++ "] "))%string.

Definition line_passes (lineReg ignoreReg : option Regexp) (line : Line)
  : bool :=
  negb (set_and_match ignoreReg (Text line))
  && match lineReg with
     | Some r => MatchString r (Text line)
     | None => true
     end.

(** The three fields of the options that a round of the loop gives to
    the trail, and the two it gives to the handler. *)
Definition round_options (r : TrailOptions * option Regexp * option Regexp)
  : TrailOptions := fst (fst r).

Definition round_lineReg (r : TrailOptions * option Regexp * option Regexp)
  : option Regexp := snd (fst r).

(** An environment whose disk is full, whose regexp compiler knows the
    pattern [\.log$] only, and whose configuration file is missing. *)
Definition poor_env : console.Env :=
  console.mkEnv
    (fun p => if String.eqb p "\.log$" then inl re_log
              else inr ("error parsing regexp: " ++ p)%string)
    (fun _ => "Jan 2, 2006 at 3:04pm (UTC)")
    (fun _ _ => Some "no space left on device"%string)
    (fun _ => (console.mkConf [] "" false "" false false,
               Some "open sauron.conf: no such file or directory"%string)).

(** The state of the package when [MainAction] starts, and after
    [setLogger]. *)
Definition at_start : console.State := console.mkState None [] [] [] 0.
Definition with_logger : console.State :=
  console.mkState (Some []) [] [] [] 0.

Definition plain_context : console.Context :=
  console.mkContext "sauron.conf" false false true false.

Definition log_watch : console.watch :=
  console.mkwatch ["/var/log/app"%string] "\.log$" "" 0 0 "" "" "" "out.log"
    "app".

Definition bare_watch : console.watch :=
  console.mkwatch ["/var/log/db"%string] "" "" 0 0 "" "" "" "db.log" "".

(** A pattern field after a round: the pattern of the round compiled
    when it is not empty and compiles, else what the field held. *)
Definition kept_or_compiled (e : console.Env) (pattern : string)
           (old : option Regexp) : option Regexp :=
  if (0 <? String.length pattern)%nat then
    match console.regexp_Compile e pattern with
    | inl r => Some r
    | inr _ => old
    end
  else old.

(** What a pattern field of the options holds round after round: the
    latest pattern that was not empty and compiled, or what the options
    held before the loop. *)
Fixpoint carried (e : console.Env) (get : console.watch -> string)
         (cur : option Regexp) (ws : list console.watch)
  : list (option Regexp) :=
  match ws with
  | [] => []
  | w :: ws' =>
      kept_or_compiled e (get w) cur
        :: carried e get (kept_or_compiled e (get w) cur) ws'
  end.

(** The duration of a round: the configured one when it is positive,
    else seven days. *)
Definition duration_or_week (d : Duration) : Duration :=
  if d >? 0 then d else 604800000000000.

(** The logger is set, and nothing was written or printed between the
    two states. *)
Definition only_logged (s s' : console.State) : Prop :=
  console.logger s' <> None /\
  console.outLog s' = console.outLog s /\
  console.stdout s' = console.stdout s /\
  console.writes s' = console.writes s.

Definition round_ignoreReg (r : TrailOptions * option Regexp * option Regexp)
  : option Regexp := snd r.

(** An environment whose configuration file decodes to a section
    without a log level. *)
Definition fair_env : console.Env :=
  console.mkEnv
    (fun p => if String.eqb p "\.log$" then inl re_log
              else inr ("error parsing regexp: " ++ p)%string)
    (fun _ => "Jan 2, 2006 at 3:04pm (UTC)")
    (fun _ _ => None)
    (fun _ => (console.mkConf [log_watch; bare_watch] "" false "" false false,
               None)).

(* ------------------------------------------------------------------ *)
(** *** The pid file *)

Definition maxInt64 : Z := 9223372036854775807.
Definition minInt64 : Z := -9223372036854775808.

(** [strconv.Atoi]: an optional sign, then decimal digits and nothing
    else; the value has to fit an int.  The callers test the error
    against nil only, so its text is kept short. *)
Definition Atoi (s : string) : Z + error :=
  let parsed :=
    match s with
    | String "+" s' =>
        option_map Decimal.Pos (DecimalString.NilZero.uint_of_string s')
    | _ => DecimalString.NilZero.int_of_string s
    end in
  match parsed with
  | None => inr ("strconv.Atoi: parsing: invalid syntax")%string
  | Some d =>
      let n := Z.of_int d in
      if (minInt64 <=? n) && (n <=? maxInt64) then inl n
      else inr ("strconv.Atoi: parsing: value out of range")%string
  end.

(** [filepath.Join] of a directory and a file name. *)
Definition filepath_Join (dir name : string) : string :=
  match dir, name with
  | EmptyString, EmptyString => ""
  | EmptyString, _ => filepath.Clean name
  | _, EmptyString => filepath.Clean dir
  | _, _ => filepath.Clean (dir ++ "/" ++ name)%string
  end.

Module pidfile.

(** What the operating system answers to [writePidFile]. *)
Record OS : Type := mkOS {
  Args0 : string;                              (* os.Args[0] *)
  Abs : string -> string + error;              (* filepath.Abs *)
  ReadFile : string -> string + error;         (* ioutil.ReadFile *)
  FindProcess : Z -> option error;             (* os.FindProcess *)
  Signal0 : Z -> option error;     (* process.Signal(syscall.Signal(0)) *)
  WriteFile : string -> string -> option error;  (* ioutil.WriteFile *)
  Getpid : Z                                   (* os.Getpid() *)
}.

(** The last statement: the pid of this process goes into the file.
    The result is the error of the write and the write that was made. *)
Definition overwrite (os : OS) (pidFile : string)
  : option error * list (string * string) :=
  (WriteFile os pidFile (Itoa (Getpid os)),
   [(pidFile, Itoa (Getpid os))]).

Definition pidFile (os : OS) : string :=
  match Abs os (filepath.Dir (Args0 os)) with
  | inl dir => filepath_Join dir "sauron.pid"
  | inr _ => ""
  end.

(** [writePidFile]: its result, and the calls of [WriteFile] it made. *)
Definition writePidFile (os : OS) : option error * list (string * string) :=
  let pidFile := pidFile os in
  match ReadFile os pidFile with
  | inl piddata =>
      match Atoi piddata with
      | inl pid =>
          match FindProcess os pid with
          | None =>
              match Signal0 os pid with
              | None =>
                  (Some ("pid already running: " ++ Itoa pid)%string, [])
              | Some _ => overwrite os pidFile
              end
          | Some _ => overwrite os pidFile
          end
      | inr _ => overwrite os pidFile
      end
  | inr _ => overwrite os pidFile
  end.

End pidfile.

(** A machine on which process 4711 runs and has left its pid file. *)
Definition second_start : pidfile.OS :=
  pidfile.mkOS "/opt/sauron/sauron"
    (fun p => inl p)
    (fun f => if String.eqb f "/opt/sauron/sauron.pid" then inl "4711"%string
              else inr "no such file or directory"%string)
    (fun _ => None)
    (fun pid => if pid =? 4711 then None
                else Some "os: process already finished"%string)
    (fun _ _ => None)
    4812.

(** The same machine, with a newline at the end of the pid file. *)
Definition edited_pidfile : pidfile.OS :=
  pidfile.mkOS "/opt/sauron/sauron"
    (fun p => inl p)
    (fun f => if String.eqb f "/opt/sauron/sauron.pid"
              then inl ("4711" ++ console.newline)%string
              else inr "no such file or directory"%string)
    (fun _ => None)
    (fun pid => if pid =? 4711 then None
                else Some "os: process already finished"%string)
    (fun _ _ => None)
    4812.

(** The pid file holds the pid of a process that answers signal 0. *)
Definition instance_running (os : pidfile.OS) (pid : Z) : Prop :=
  exists data,
    pidfile.ReadFile os (pidfile.pidFile os) = inl data /\
    Atoi data = inl pid /\
    pidfile.FindProcess os pid = None /\
    pidfile.Signal0 os pid = None.

(** A directory in which [old.log] was written to ten nanoseconds ago
    and every other file carries a time ahead of the clock, and a trail
    with a limit of 0 that follows [old.log] and [current_log]. *)
Definition mixed_world : World :=
  mkWorld (fun _ => 1000)
          (fun _ p =>
             if String.eqb p "/var/log/app/old.log"
             then inl (mkFileInfo (filepath.Base p) 990)
             else inl (mkFileInfo (filepath.Base p) 2000))
          (fun _ _ _ => None)
          (mkWatcher (fun _ => (["/var/log/app/old.log"%string; current_log],
                                None))).

Definition mixed_pool : Trail :=
  with_tails (handles_from 0 (tailConfig false false)
                ["/var/log/app/old.log"%string; current_log])
             sample_trail.

(* ================================================================== *)
(** ** Library models on concrete inputs *)

Example Dir_a_log : filepath.Dir "/app/logs/a.log" = "/app/logs".
Proof. reflexivity. Qed.

Example Dir_clean : filepath.Dir "/app//logs/../x/./a.log" = "/app/x".
Proof. reflexivity. Qed.

Example Dir_plain : filepath.Dir "a.log" = ".".
Proof. reflexivity. Qed.

Example Base_a_log : filepath.Base "/app/logs/a.log/" = "a.log".
Proof. reflexivity. Qed.

Example Itoa_16 : Itoa 16 = "16".
Proof. reflexivity. Qed.

Lemma set_and_no_match_iff (x : option Regexp) (s : string) :
  set_and_no_match x s = true <->
  exists r, x = Some r /\ MatchString r s = false.
Proof.
  unfold set_and_no_match. destruct x as [r|].
  - rewrite negb_true_iff. split.
    + intros H. exists r. auto.
    + intros [r' [E H]]. injection E as ->. exact H.
  - split; [discriminate | intros [r [E _]]; discriminate].
Qed.

Lemma set_and_match_iff (x : option Regexp) (s : string) :
  set_and_match x s = true <->
  exists r, x = Some r /\ MatchString r s = true.
Proof.
  unfold set_and_match. destruct x as [r|].
  - split.
    + intros H. exists r. auto.
    + intros [r' [E H]]. injection E as ->. exact H.
  - split; [discriminate | intros [r [E _]]; discriminate].
Qed.

(** What [isOldToIgnore] returns and leaves behind. *)
Lemma isOldToIgnore_run (w : World) (path : string) (t : Trail) :
  isOldToIgnore w path t =
  match os_Stat w (calls t) path with
  | inl info =>
      Ret (Sub (time_Now w (S (calls t))) (fi_ModTime info)
             >? FileIgnoreDuration (options t))
          (tick (tick t))
  | inr e =>
      Ret false
          (mkTrail (options t) (tails t) (watcher t) (done t) (S (calls t))
             (allocated t) (stopped t)
             (logged t ++ [(ErrorLevel, ("failed to get file info. " ++ e)%string)])
             (handled t))
  end.
Proof.
  unfold isOldToIgnore, bind, Stat.
  destruct (os_Stat w (calls t) path); reflexivity.
Qed.

Lemma isOldToIgnore_true_iff (w : World) (path : string) (t : Trail) :
  value (isOldToIgnore w path t) = Some true <-> rule_age w t path.
Proof.
  rewrite isOldToIgnore_run. unfold rule_age.
  destruct (os_Stat w (calls t) path) as [info|e]; simpl.
  - split.
    + intros H. exists info. split; [reflexivity|].
      injection H as H. apply Z.gtb_lt in H. lia.
    + intros [info' [E H]]. injection E as <-.
      f_equal. apply Z.gtb_lt. lia.
  - split; [discriminate | intros [info [E _]]; discriminate].
Qed.

Lemma isOldToIgnore_total (w : World) (path : string) (t : Trail) :
  exists b t', isOldToIgnore w path t = Ret b t' /\ quiet t t'.
Proof.
  rewrite isOldToIgnore_run.
  destruct (os_Stat w (calls t) path); eexists; eexists;
    (split; [reflexivity | unfold quiet; simpl; tauto]).
Qed.

Lemma ignore_total (w : World) (path : string) (t : Trail) :
  exists b t', ignore w path t = Ret b t' /\ quiet t t'.
Proof.
  unfold ignore, bind, get_options.
  destruct (set_and_no_match _ _).
  { exists true, t. split; [reflexivity | unfold quiet; tauto]. }
  destruct (set_and_no_match _ _).
  { exists true, t. split; [reflexivity | unfold quiet; tauto]. }
  destruct (set_and_match _ _).
  { exists true, t. split; [reflexivity | unfold quiet; tauto]. }
  apply isOldToIgnore_total.
Qed.

Lemma ignore_true_iff (w : World) (path : string) (t : Trail) :
  value (ignore w path t) = Some true <->
  rule_path t path \/ rule_file t path \/ rule_exclude t path \/
  rule_age w t path.
Proof.
  unfold rule_path, rule_file, rule_exclude.
  rewrite <- !set_and_no_match_iff, <- set_and_match_iff,
    <- isOldToIgnore_true_iff.
  unfold ignore, bind, get_options.
  destruct (set_and_no_match (PathReg _) _); [simpl; tauto|].
  destruct (set_and_no_match (FileReg _) _); [simpl; tauto|].
  destruct (set_and_match _ _); [simpl; tauto|].
  split; [tauto|]. intros [H|[H|[H|H]]]; try discriminate. exact H.
Qed.

(** With the patterns of the example and an age limit of one hour, a
    file [/app/logs/a.log] that was last written to two hours ago is
    ignored: the age rule applies to it. *)
Lemma C5_a_log_ignored_by_age :
  value (ignore stale_world "/app/logs/a.log" (policy_trail false hour 0))
  = Some true.
Proof. vm_compute. reflexivity. Qed.

(** C5, as the code has it.  For every path, [ignore] returns, and it returns true exactly
    when one of the four rules holds: the path pattern is set and does
    not match the directory, the file pattern is set and does not match
    the base name, the exclusion pattern is set and matches the base
    name, or the file was stat'ed and is older than
    [FileIgnoreDuration].  A failed stat never makes the file old; when
    the patterns let the path through, the failure is logged and the
    answer is false.  With the patterns [/app/logs], [\.log$] and
    [\.tmp$], [/app/logs/a.tmp] and [/other/b.log] are ignored, and
    [/app/logs/a.log] is not ignored unless the age rule says so. *)
Theorem C5_ignore_rules (w : World) (t : Trail) (path : string) :
  (exists b t', ignore w path t = Ret b t' /\
     (b = true <->
      rule_path t path \/ rule_file t path \/ rule_exclude t path \/
      rule_age w t path))
  /\ (forall e, os_Stat w (calls t) path = inr e ->
        ~ rule_age w t path /\
        (~ rule_path t path -> ~ rule_file t path -> ~ rule_exclude t path ->
         value (ignore w path t) = Some false /\
         exists t', final (ignore w path t) = Some t' /\
           logged t' =
           logged t ++ [(ErrorLevel, ("failed to get file info. " ++ e)%string)]))
  /\ (forall poll ign fol,
        let t0 := with_options (policy_example poll ign fol) t in
        value (ignore w "/app/logs/a.tmp" t0) = Some true /\
        (~ rule_age w t0 "/app/logs/a.log" ->
         value (ignore w "/app/logs/a.log" t0) = Some false) /\
        value (ignore w "/other/b.log" t0) = Some true).
Proof.
  split; [|split].
  - destruct (ignore_total w path t) as [b [t' [E _]]].
    exists b, t'. split; [exact E|].
    rewrite <- ignore_true_iff, E. simpl.
    split; intros H; [subst; reflexivity | injection H; auto].
  - intros e He. split.
    + intros [info [E _]]. rewrite E in He. discriminate.
    + intros H1 H2 H3.
      unfold rule_path in H1. unfold rule_file in H2. unfold rule_exclude in H3.
      rewrite <- set_and_no_match_iff in H1, H2.
      rewrite <- set_and_match_iff in H3.
      unfold ignore, bind, get_options.
      destruct (set_and_no_match (PathReg _) _); [tauto|].
      destruct (set_and_no_match (FileReg _) _); [tauto|].
      destruct (set_and_match _ _); [tauto|].
      rewrite isOldToIgnore_run, He. simpl. split; [reflexivity|].
      eexists. split; reflexivity.
  - intros poll ign fol t0. split; [reflexivity|]. split; [|reflexivity].
    intros Hage.
    destruct (ignore_total w "/app/logs/a.log" t0) as [b [t' [E _]]].
    rewrite E. simpl. destruct b; [|reflexivity].
    exfalso. apply Hage.
    assert (H : value (ignore w "/app/logs/a.log" t0) = Some true)
      by (rewrite E; reflexivity).
    apply ignore_true_iff in H.
    destruct H as [[r [E1 M1]]|[[r [E1 M1]]|[[r [E1 M1]]|H]]];
      [ | | | exact H];
      simpl in E1; injection E1 as <-; vm_compute in M1; discriminate.
Qed.

(** The policy example where no file can be stat'ed: [a.log] is
    followed. *)
Lemma C5_ignore_rules_witness :
  value (ignore (world_without_files 0 []) "/app/logs/a.log"
           (with_options (policy_example false 0 0) (NewTrail))) = Some false.
Proof.
  apply (C5_ignore_rules (world_without_files 0 []) NewTrail ""
           ).
  intros [info [E _]]. discriminate E.
Defined.

(* ================================================================== *)
(** ** Starting followers *)

Lemma bind_Ret {A B} (c : M A) (k : A -> M B) (t t' : Trail) (a : A) :
  c t = Ret a t' -> bind c k t = k a t'.
Proof. intros E. unfold bind. rewrite E. reflexivity. Qed.

(** One step of symbolic execution: the monad and the primitive
    operations are unfolded, the loops are not. *)
Ltac run :=
  cbv beta iota delta
    [bind ret must panic get_tails set_tails get_options set_watcher set_done
     Stat Now Walk isOlderThanADay Debugln Infoln Errorln log Stop call
     Slice.index];
  cbn [nth_error options tails watcher done calls allocated stopped logged
       handled tick fst snd].

Lemma quiet_refl (t : Trail) : quiet t t.
Proof. unfold quiet. tauto. Qed.

Lemma quiet_trans (t1 t2 t3 : Trail) :
  quiet t1 t2 -> quiet t2 t3 -> quiet t1 t3.
Proof.
  unfold quiet. intros H1 H2.
  decompose [and] H1. decompose [and] H2.
  repeat split; congruence.
Qed.

Lemma quiet_same_control (t t' : Trail) : quiet t t' -> same_control t t'.
Proof. unfold quiet, same_control. tauto. Qed.

Lemma same_control_refl (t : Trail) : same_control t t.
Proof. unfold same_control. tauto. Qed.

Lemma same_control_trans (t1 t2 t3 : Trail) :
  same_control t1 t2 -> same_control t2 t3 -> same_control t1 t3.
Proof.
  unfold same_control. intros H1 H2.
  decompose [and] H1. decompose [and] H2.
  repeat split; congruence.
Qed.

(** [followFile] returns, and the pool grows by what was opened. *)
Lemma followFile_run (w : World) (path : string) (handler : LineHandler)
      (isNew : bool) (t : Trail) :
  exists t', followFile w path handler isNew t = Ret tt t' /\
    tails t' = tails t ++ opened w t path isNew /\
    same_control t t' /\
    (calls t' = S (calls t)) /\
    allocated t' = (allocated t + List.length (opened w t path isNew))%nat.
Proof.
  unfold followFile, opened, bind, get_options, Debugln, log, TailFile,
    get_tails, set_tails, same_control.
  simpl.
  destruct (PollChanges (options t)); simpl;
    destruct (tail_TailFile w (calls t) path _); simpl;
    eexists; (split; [reflexivity|]); simpl;
    rewrite ?app_nil_r, ?Nat.add_0_r, ?Nat.add_1_r; tauto.
Qed.

Lemma opened_mode (w : World) (t : Trail) (path : string) (isNew : bool) :
  Forall (fun tl => Filename tl = path /\
                    if isNew then new_mode tl else existing_mode tl)
         (opened w t path isNew).
Proof.
  unfold opened. destruct (tail_TailFile _ _ _ _); constructor; [|constructor].
  split; [reflexivity|].
  destruct isNew; unfold new_mode, existing_mode, start_offset; simpl;
    split; auto; intros; lia.
Qed.

(** The loop of [Follow] over the initial listing. *)
Lemma initial_listing_run (w : World) (handler : LineHandler)
      (files : list string) :
  forall t, exists t' new,
    for_each files (fun file =>
      ig <- ignore w file ;;
      if ig then ret tt else followFile w file handler false) t = Ret tt t' /\
    tails t' = tails t ++ new /\
    Forall (fun tl => In (Filename tl) files /\ existing_mode tl) new /\
    same_control t t'.
Proof.
  induction files as [|file files IH]; intros t.
  - exists t, []. simpl. rewrite app_nil_r.
    refine (conj eq_refl (conj eq_refl (conj _ _))); auto using same_control_refl.
  - simpl.
    destruct (ignore_total w file t) as [b [t1 [E Q]]].
    assert (Ht1 : tails t1 = tails t) by (unfold quiet in Q; tauto).
    apply quiet_same_control in Q.
    destruct b.
    + destruct (IH t1) as [t' [new [E' [Hn [Hf Hc]]]]].
      exists t', new.
      rewrite (bind_Ret _ _ t t1 tt); [|rewrite (bind_Ret _ _ _ _ _ E); reflexivity].
      rewrite E'. refine (conj eq_refl (conj _ (conj _ _))).
      * congruence.
      * eapply Forall_impl; [|exact Hf]. simpl. intros a [? ?]. auto.
      * eauto using same_control_trans.
    + destruct (followFile_run w file handler false t1)
        as [t2 [E2 [Hn2 [Hc2 _]]]].
      destruct (IH t2) as [t' [new [E' [Hn [Hf Hc]]]]].
      exists t', (opened w t1 file false ++ new).
      rewrite (bind_Ret _ _ t t2 tt); [|rewrite (bind_Ret _ _ _ _ _ E); exact E2].
      rewrite E'. refine (conj eq_refl (conj _ (conj _ _))).
      * rewrite Hn, Hn2, Ht1, app_assoc. reflexivity.
      * apply Forall_app. split.
        -- eapply Forall_impl; [|apply opened_mode]. simpl.
           intros a [? ?]. auto.
        -- eapply Forall_impl; [|exact Hf]. simpl. intros a [? ?]. auto.
      * eauto using same_control_trans.
Qed.

(** [Follow] returns what the listing returned as its error; when the
    listing fails only the log and the call counter have moved. *)
Lemma Follow_run (w : World) (handler : LineHandler) (t : Trail) :
  exists t', Follow w handler t = Ret (snd (watcher_Walk w (calls t))) t' /\
    match snd (watcher_Walk w (calls t)) with
    | Some _ =>
        quiet t t' /\ calls t' = S (calls t)
    | None =>
        exists new, tails t' = tails t ++ new /\
          Forall (fun tl => In (Filename tl) (fst (watcher_Walk w (calls t)))
                            /\ existing_mode tl) new /\
          done t' = Running /\ watcher t' = Watching /\
          stopped t' = stopped t /\ handled t' = handled t
    end.
Proof.
  unfold Follow, bind at 1. unfold Infoln, log, bind at 1, Walk. simpl.
  destruct (watcher_Walk w (calls t)) as [files [e|]]; simpl.
  - eexists. split; [reflexivity|]. unfold quiet. simpl. tauto.
  - unfold bind at 1.
    match goal with
    | |- context [for_each files ?body ?s] =>
        destruct (initial_listing_run w handler files s)
          as [t1 [new [E [Hn [Hf Hc]]]]]
    end.
    rewrite E. simpl in *. eexists. split; [reflexivity|].
    exists new. unfold same_control in Hc. simpl in *.
    repeat split; tauto.
Qed.

(** A [Create] event: the path is screened, and a follower in new mode
    is started when it passes. *)
Lemma create_run (w : World) (handler : LineHandler) (path : string)
      (t : Trail) :
  exists b t1 t',
    ignore w path t = Ret b t1 /\
    eventLoop_event w handler (create_event path) t = Ret tt t' /\
    tails t' = tails t ++ (if b then [] else opened w t1 path true) /\
    same_control t t'.
Proof.
  destruct (ignore_total w path t) as [b [t1 [E Q]]].
  assert (Ht1 : tails t1 = tails t) by (unfold quiet in Q; tauto).
  apply quiet_same_control in Q.
  unfold eventLoop_event. simpl ev_Path. simpl ev_Op.
  rewrite (bind_Ret _ _ _ _ _ E).
  destruct b.
  - exists true, t1, t1. rewrite app_nil_r. auto.
  - change (fsnotify.Create =? fsnotify.Create) with true. cbv iota.
    unfold bind at 1, Debugln at 1, log at 1.
    match goal with
    | |- context [followFile w path handler true ?s] =>
        destruct (followFile_run w path handler true s)
          as [t' [E' [Hn [Hc _]]]]
    end.
    exists false, t1, t'. split; [exact E|]. split; [exact E'|].
    split.
    + rewrite Hn. simpl. rewrite Ht1. reflexivity.
    + eapply same_control_trans; [exact Q|].
      unfold same_control in *. simpl in Hc. exact Hc.
Qed.


(** C7.  [Follow] always returns, and what it returns is the error of
    the initial listing: an error exactly when [Walk] fails.  When
    [Walk] fails, [Walk] was the only call made, the pool is as before,
    no tailer was created and no event loop or watcher was started. *)
Theorem C7_follow_fails_only_on_listing (w : World) (handler : LineHandler)
        (t : Trail) :
  exists r t',
    Follow w handler t = Ret r t' /\
    r = snd (watcher_Walk w (calls t)) /\
    (r <> None <-> snd (watcher_Walk w (calls t)) <> None) /\
    (r <> None ->
     tails t' = tails t /\ allocated t' = allocated t /\
     calls t' = S (calls t) /\
     done t' = done t /\ watcher t' = watcher t).
Proof.
  destruct (Follow_run w handler t) as [t' [E H]].
  exists (snd (watcher_Walk w (calls t))), t'.
  split; [exact E|]. split; [reflexivity|]. split; [tauto|].
  intros Hr. destruct (snd (watcher_Walk w (calls t))); [|congruence].
  destruct H as [Q Hc]. unfold quiet in Q. tauto.
Qed.


(** [Follow] when the listing fails. *)
Lemma C7_follow_fails_only_on_listing_witness :
  exists r t',
    Follow broken_dir accept_all NewTrail = Ret r t' /\
    r = Some "no such directory"%string /\ tails t' = [].
Proof.
  destruct (C7_follow_fails_only_on_listing broken_dir accept_all NewTrail)
    as [r [t' [E [Hr [_ H]]]]].
  exists r, t'. split; [exact E|]. split; [exact Hr|].
  apply H. rewrite Hr. discriminate.
Defined.

(** A second [Create] for a path gives the pool a second handle for
    it. *)
Lemma C2_two_creates_two_handles :
  exists t1 t2,
    eventLoop_event fresh_world accept_all (create_event current_log)
      sample_trail = Ret tt t1 /\
    eventLoop_event fresh_world accept_all (create_event current_log)
      t1 = Ret tt t2 /\
    one_handle_per_path (tails t1) /\
    ~ one_handle_per_path (tails t2).
Proof.
  eexists. eexists.
  split; [vm_compute; reflexivity|].
  split; [vm_compute; reflexivity|].
  split.
  - repeat constructor. simpl. tauto.
  - intros H. inversion H as [|x l Hin _]. subst. apply Hin. simpl. auto.
Qed.

(** C2, as the code has it.  The pool is a sequence and nothing in the
    event loop looks a path up before following it: a [Create] event
    for a path that is not ignored and whose tailer opens appends
    exactly one new handle in new mode for that path, and when the path
    already had a handle the pool then holds two for it. *)
Theorem C2_create_appends_a_handle (w : World) (handler : LineHandler)
        (path : string) (t : Trail) :
  value (ignore w path t) = Some false ->
  (forall k c, tail_TailFile w k path c = None) ->
  exists t',
    eventLoop_event w handler (create_event path) t = Ret tt t' /\
    tails t' =
      tails t ++
      [mkTail (allocated t) path (tailConfig (PollChanges (options t)) true)] /\
    (In path (map Filename (tails t)) -> ~ one_handle_per_path (tails t')).
Proof.
  intros Hig Hopen.
  destruct (create_run w handler path t) as [b [t1 [t' [E [E' [Hn _]]]]]].
  destruct (ignore_total w path t) as [b0 [t0 [E0 Q]]].
  rewrite E in E0. injection E0 as -> ->.
  rewrite E in Hig. simpl in Hig. injection Hig as ->.
  unfold opened in Hn. rewrite Hopen in Hn.
  destruct Q as [Ho [_ [_ [_ [Ha _]]]]]. rewrite Ho, Ha in Hn.
  exists t'. split; [exact E'|]. split; [exact Hn|].
  intros Hin Hnd. unfold one_handle_per_path in Hnd.
  rewrite Hn, map_app in Hnd. simpl in Hnd.
  apply NoDup_remove_2 in Hnd. rewrite app_nil_r in Hnd. auto.
Qed.

Lemma C2_create_appends_a_handle_witness :
  exists t',
    eventLoop_event fresh_world accept_all (create_event current_log)
      sample_trail = Ret tt t' /\
    tails t' = [mkTail 0 current_log (tailConfig false true)].
Proof.
  destruct (C2_create_appends_a_handle fresh_world accept_all current_log
              sample_trail) as [t' [E [Hn _]]].
  - reflexivity.
  - reflexivity.
  - exists t'. split; [exact E | exact Hn].
Defined.

(* ================================================================== *)
(** ** Stopping followers *)

Lemma trail_eta (t : Trail) :
  mkTrail (options t) (tails t) (watcher t) (done t) (calls t) (allocated t)
    (stopped t) (logged t) (handled t) = t.
Proof. destruct t. reflexivity. Qed.

Lemma stop_all_nil (t : Trail) : stop_all [] t = t.
Proof. unfold stop_all. simpl. rewrite app_nil_r. apply trail_eta. Qed.

Lemma stop_all_app (l1 l2 : list Tail) (t : Trail) :
  stop_all l2 (stop_all l1 t) = stop_all (l1 ++ l2) t.
Proof. unfold stop_all. simpl. rewrite map_app, app_assoc. reflexivity. Qed.

Lemma for_each_Stop (l : list Tail) :
  forall t, for_each l Stop t = Ret tt (stop_all l t).
Proof.
  induction l as [|x l IH]; intros t.
  - simpl. rewrite stop_all_nil. reflexivity.
  - simpl. unfold bind, Stop at 1. rewrite IH.
    change (x :: l) with ([x] ++ l). rewrite <- stop_all_app. reflexivity.
Qed.

(** The loop of [unfollowFile], from position [length pre] on: every
    handle of the path is stopped, and the pool is put together again
    from its two parts [cur[:i]] and [cur[i:]], that is as it was. *)
Lemma unfollowFile_loop (name : string) (suffix : list Tail) :
  forall pre t,
    tails t = pre ++ suffix ->
    for_range (List.length pre) suffix (fun i tail =>
      if String.eqb (Filename tail) name then
        Stop tail ;;
        cur <- get_tails ;;
        a <- must (Slice.upto i cur) ;;
        b <- must (Slice.from i cur) ;;
        set_tails (a ++ b)
      else ret tt) t
    = Ret tt (stop_all (handles_of name suffix) t).
Proof.
  induction suffix as [|x suffix IH]; intros pre t Ht.
  - simpl. rewrite stop_all_nil. reflexivity.
  - assert (Hlen : (List.length pre <=? List.length (tails t))%nat = true).
    { apply Nat.leb_le. rewrite Ht, length_app. lia. }
    assert (Hnext : tails t = (pre ++ [x]) ++ suffix)
      by (rewrite <- app_assoc; exact Ht).
    assert (HS : S (List.length pre) = List.length (pre ++ [x]))
      by (rewrite length_app; simpl; lia).
    simpl for_range. unfold handles_of. simpl filter.
    destruct (String.eqb (Filename x) name).
    + erewrite bind_Ret.
      2:{ unfold bind, Stop, get_tails, must, Slice.upto, Slice.from, set_tails.
          simpl. rewrite Hlen. simpl. rewrite firstn_skipn. reflexivity. }
      rewrite HS.
      change (mkTrail (options t) (tails t) (watcher t) (done t) (calls t)
                (allocated t) (stopped t ++ [tail_ptr x]) (logged t)
                (handled t)) with (stop_all [x] t).
      rewrite (IH (pre ++ [x]) (stop_all [x] t) Hnext).
      rewrite stop_all_app. reflexivity.
    + erewrite bind_Ret by reflexivity.
      rewrite HS. apply (IH (pre ++ [x]) t Hnext).
Qed.

(** [unfollowFile] returns nil, has stopped the handles of the path and
    has left the pool as it was. *)
Lemma unfollowFile_run (name : string) (t : Trail) :
  unfollowFile name t = Ret None (stop_all (handles_of name (tails t)) t).
Proof.
  unfold unfollowFile.
  erewrite bind_Ret by (unfold get_tails; reflexivity).
  erewrite bind_Ret by (apply (unfollowFile_loop name (tails t) [] t); reflexivity).
  reflexivity.
Qed.

(** A [Remove] event: the path is screened; when it passes, its handles
    are stopped.  The pool is the same afterwards in either case. *)
Lemma remove_run (w : World) (handler : LineHandler) (path : string)
      (t : Trail) :
  exists b t1 t',
    ignore w path t = Ret b t1 /\
    eventLoop_event w handler (remove_event path) t = Ret tt t' /\
    tails t' = tails t /\
    stopped t' =
      stopped t ++ (if b then [] else map tail_ptr (handles_of path (tails t))).
Proof.
  destruct (ignore_total w path t) as [b [t1 [E Q]]].
  destruct Q as [_ [Ht1 [_ [_ [_ [Hs1 _]]]]]].
  unfold eventLoop_event. simpl ev_Path. simpl ev_Op.
  rewrite (bind_Ret _ _ _ _ _ E).
  destruct b.
  - exists true, t1, t1. rewrite app_nil_r. auto.
  - change (fsnotify.Remove =? fsnotify.Create) with false.
    change (fsnotify.Remove =? fsnotify.Remove) with true. cbv iota.
    unfold bind at 1, Debugln at 1, log at 1.
    erewrite bind_Ret by apply unfollowFile_run.
    eexists false, t1, _. split; [exact E|]. split; [reflexivity|].
    simpl. rewrite Ht1, Hs1. auto.
Qed.

(** C1, on the code.  After a [Remove] event the pool is what it was
    before the event: when the path is not ignored its handles are
    stopped, but [unfollowFile] rebuilds the pool from [tails[:i]] and
    [tails[i:]], which drops nothing, so a path that had a handle still
    has it. *)
Theorem C1_remove_event_keeps_handle (w : World) (handler : LineHandler)
        (path : string) (t : Trail) :
  exists t',
    eventLoop_event w handler (remove_event path) t = Ret tt t' /\
    tails t' = tails t /\
    (value (ignore w path t) = Some false ->
     stopped t' = stopped t ++ map tail_ptr (handles_of path (tails t))) /\
    (In path (map Filename (tails t)) -> In path (map Filename (tails t'))).
Proof.
  destruct (remove_run w handler path t) as [b [t1 [t' [E [E' [Ht Hs]]]]]].
  exists t'. split; [exact E'|]. split; [exact Ht|]. split.
  - intros H. rewrite E in H. simpl in H. injection H as ->. exact Hs.
  - rewrite Ht. auto.
Qed.

(** The file [current.log] is followed and then removed: its tailer is
    stopped and its handle is still in the pool. *)
Example C1_failing_input :
  exists t1 t2,
    eventLoop_event fresh_world accept_all (create_event current_log)
      sample_trail = Ret tt t1 /\
    eventLoop_event (world_without_files 2000 []) accept_all
      (remove_event current_log) t1 = Ret tt t2 /\
    stopped t2 = [0%nat] /\
    tails t2 = [mkTail 0 current_log (tailConfig false true)].
Proof.
  eexists. eexists.
  split; [vm_compute; reflexivity|].
  split; [vm_compute; reflexivity|].
  split; reflexivity.
Qed.

(* ================================================================== *)
(** ** The staleness sweep *)

Lemma delete_shift_spec {A} (i : nat) (s : list A) :
  (i < List.length s)%nat ->
  Slice.delete_shift i s = Some (firstn i s ++ skipn (S i) s).
Proof.
  intros Hi. unfold Slice.delete_shift, Slice.from, Slice.copy.
  replace (i <=? List.length s)%nat with true
    by (symmetry; apply Nat.leb_le; lia).
  replace (S i <=? List.length s)%nat with true
    by (symmetry; apply Nat.leb_le; lia).
  rewrite !length_skipn.
  rewrite (firstn_all2 (skipn (S i) s)) by (rewrite length_skipn; lia).
  rewrite app_assoc.
  set (kept := firstn i s ++ skipn (S i) s).
  set (last := skipn (List.length s - S i) (skipn i s)).
  assert (Hk : List.length kept = (List.length s - 1)%nat).
  { unfold kept. rewrite length_app, length_firstn, length_skipn. lia. }
  assert (Hl : List.length last = 1%nat).
  { unfold last. rewrite !length_skipn. lia. }
  unfold Slice.upto. rewrite length_app, Hk, Hl.
  replace (List.length s - 1 + 1 - 1 <=? List.length s - 1 + 1)%nat with true
    by (symmetry; apply Nat.leb_le; lia).
  f_equal. rewrite firstn_app.
  replace (List.length s - 1 + 1 - 1)%nat with (List.length kept) by lia.
  rewrite firstn_all, Nat.sub_diag. simpl. apply app_nil_r.
Qed.

(** With a threshold of 0 the age test asks whether the file was
    modified strictly before now; saturation keeps the sign. *)
Lemma Sub_gt_0 (n m : Time) : (Sub n m >? 0) = (m <? n).
Proof.
  unfold Sub, maxDuration, minDuration.
  destruct (n - m >? 9223372036854775807) eqn:E1;
    [|destruct (n - m <? -9223372036854775808) eqn:E2].
  - apply Z.gtb_lt in E1. symmetry. apply Z.ltb_lt. lia.
  - apply Z.ltb_lt in E2. symmetry. apply Z.ltb_ge. lia.
  - destruct (m <? n) eqn:E3.
    + apply Z.ltb_lt in E3. apply Z.gtb_lt. lia.
    + apply Z.ltb_ge in E3. rewrite Z.gtb_ltb. apply Z.ltb_ge. lia.
Qed.

Lemma sweep_S (w : World) (fuel i : nat) :
  sweep w (S fuel) i =
  (cur <- get_tails ;;
   if (i <? List.length cur)%nat then
     ti <- must (Slice.index i cur) ;;
     r <- Stat w (Filename ti) ;;
     match r with
     | inl info =>
         old <- isOlderThanADay w (fi_ModTime info) ;;
         if old then
           Debugln ("unfollow: " ++ fi_Name info)%string ;;
           Stop ti ;;
           l <- must (Slice.delete_shift i cur) ;;
           set_tails l ;;
           sweep w fuel i
         else
           Debugln ("follow: " ++ fi_Name info)%string ;;
           sweep w fuel (S i)
     | inr err =>
         Errorln ("failed to get file info. " ++ err)%string ;;
         sweep w fuel i
     end
   else ret tt).
Proof. reflexivity. Qed.

Lemma sweep_finished (w : World) (fuel i : nat) (t : Trail) :
  (List.length (tails t) <= i)%nat -> sweep w fuel i t = Ret tt t.
Proof.
  intros H. destruct fuel; simpl; unfold bind, get_tails;
    replace (i <? List.length (tails t))%nat with false
      by (symmetry; apply Nat.ltb_ge; exact H);
    reflexivity.
Qed.

(** When all files are stale, the sweep stops every tailer of the pool
    once, in order, and ends with an empty pool, within as many
    iterations as the pool has handles. *)
Lemma sweep_evicts_all (w : World) (l : list Tail) :
  forall t fuel,
    tails t = l ->
    (List.length l <= fuel)%nat ->
    all_stale w (FileFollowDuration (options t)) l ->
    exists t',
      sweep w fuel 0 t = Ret tt t' /\
      tails t' = [] /\
      stopped t' = stopped t ++ map tail_ptr l /\
      same_control (stop_all l t) t' /\
      allocated t' = allocated t.
Proof.
  induction l as [|x l IH]; intros t fuel Ht Hfuel Hall.
  - exists t. rewrite sweep_finished by (rewrite Ht; simpl; lia).
    simpl. rewrite app_nil_r, stop_all_nil.
    auto using same_control_refl.
  - destruct fuel as [|fuel]; [simpl in Hfuel; lia|].
    destruct (Hall x (or_introl eq_refl) (calls t)) as [info [Hstat Hold]].
    rewrite sweep_S. run. rewrite Ht.
    change (0 <? List.length (x :: l))%nat with true. run.
    rewrite Hstat. run. rewrite Hold. run.
    rewrite delete_shift_spec by (simpl; lia). run.
    simpl firstn. simpl skipn. simpl app at 1.
    match goal with
    | |- context [sweep w fuel 0 ?s] =>
        destruct (IH s fuel) as [t' [E [Hn [Hs [Hc Ha]]]]];
          [reflexivity | simpl in Hfuel; lia | |]
    end.
    + intros tl Hin. apply Hall. right. exact Hin.
    + exists t'. split; [exact E|]. split; [exact Hn|].
      simpl in Hs, Hc, Ha. split; [|split].
      * rewrite Hs, <- app_assoc. reflexivity.
      * unfold same_control in *. simpl in *.
        rewrite <- app_assoc in Hc. exact Hc.
      * exact Ha.
Qed.

Lemma for_each_log {A} (lv : Level) (f : A -> string) (l : list A) :
  forall t, exists t',
    for_each l (fun x => log lv (f x)) t = Ret tt t' /\ quiet t t'.
Proof.
  induction l as [|x l IH]; intros t.
  - exists t. split; [reflexivity | apply quiet_refl].
  - simpl. run.
    match goal with
    | |- context [for_each l _ ?s] => destruct (IH s) as [t' [E Q]]
    end.
    exists t'. split; [exact E|].
    unfold quiet in *. simpl in Q. exact Q.
Qed.

(** [unfollowOldFiles] around its loop: when the loop ends, the
    function logs what is still followed and returns nil. *)
Lemma unfollowOldFiles_after_sweep (w : World) (fuel : nat) (t t1 : Trail) :
  sweep w fuel 0
    (logged_more (DebugLevel, "starting...unfollow old files") t) = Ret tt t1 ->
  exists t', unfollowOldFiles w fuel t = Ret None t' /\ quiet t1 t'.
Proof.
  intros E. unfold unfollowOldFiles.
  erewrite bind_Ret by reflexivity.
  erewrite bind_Ret by exact E.
  erewrite bind_Ret by reflexivity.
  erewrite bind_Ret by reflexivity.
  cbv beta.
  match goal with
  | |- context [bind (for_each ?l _) _ ?s] =>
      destruct (for_each_log DebugLevel
                  (fun tail => ("following: " ++ Filename tail)%string) l s)
        as [t' [E' Q]]
  end.
  erewrite bind_Ret by exact E'.
  exists t'. split; [reflexivity|].
  unfold quiet in *. simpl in Q. exact Q.
Qed.

(** When [unfollowOldFiles] returns, it returns nil. *)
Lemma unfollowOldFiles_returns_nil (w : World) (fuel : nat) (t t' : Trail)
      (r : option error) :
  unfollowOldFiles w fuel t = Ret r t' -> r = None.
Proof.
  destruct (sweep w fuel 0
              (logged_more (DebugLevel, "starting...unfollow old files") t))
    as [[] t1| |tb|] eqn:E.
  - destruct (unfollowOldFiles_after_sweep w fuel t t1 E) as [t2 [E2 _]].
    rewrite E2. intros H. injection H as <- _. reflexivity.
  - unfold unfollowOldFiles. unfold bind at 1, Debugln at 1, log at 1.
    unfold bind at 1. unfold logged_more in E. rewrite E. discriminate.
  - unfold unfollowOldFiles. unfold bind at 1, Debugln at 1, log at 1.
    unfold bind at 1. unfold logged_more in E. rewrite E. discriminate.
  - unfold unfollowOldFiles. unfold bind at 1, Debugln at 1, log at 1.
    unfold bind at 1. unfold logged_more in E. rewrite E. discriminate.
Qed.

(** With a threshold of 0, files modified before now are stale. *)
Lemma stale_at_zero (w : World) (l : list Tail) :
  (forall tl, In tl l -> forall k, exists info,
     os_Stat w k (Filename tl) = inl info /\
     forall k', fi_ModTime info < time_Now w k') ->
  all_stale w 0 l.
Proof.
  intros Hfiles tl Hin k.
  destruct (Hfiles tl Hin k) as [info [Hstat Hold]].
  exists info. split; [exact Hstat|].
  intros k'. rewrite Sub_gt_0. apply Z.ltb_lt. apply Hold.
Qed.

(** A sweep tick over a pool of stale files. *)
Lemma unfollowOldFiles_evicts_all (w : World) (t : Trail) (fuel : nat) :
  all_stale w (FileFollowDuration (options t)) (tails t) ->
  (List.length (tails t) <= fuel)%nat ->
  exists t',
    unfollowOldFiles w fuel t = Ret None t' /\
    tails t' = [] /\
    stopped t' = stopped t ++ map tail_ptr (tails t).
Proof.
  intros Hall Hfuel.
  destruct (sweep_evicts_all w (tails t)
              (logged_more (DebugLevel, "starting...unfollow old files") t)
              fuel eq_refl Hfuel Hall)
    as [t1 [E [Hn [Hs _]]]].
  destruct (unfollowOldFiles_after_sweep w fuel t t1 E) as [t' [E' Q]].
  exists t'. split; [exact E'|].
  destruct Q as [_ [Qt [_ [_ [_ [Qs _]]]]]].
  rewrite Qt, Qs. simpl in Hs. auto.
Qed.

(** A file whose modification time is not before the time of the check
    is not older than a threshold of 0: the sweep completes and leaves
    its handle alone. *)
Lemma C3_fresh_file_survives_sweep :
  FileFollowDuration (options following_current) = 0 /\
  exists t',
    unfollowOldFiles skewed_world 1 following_current = Ret None t' /\
    tails t' = [current_handle] /\
    stopped t' = [].
Proof.
  split; [reflexivity|].
  eexists. split; [vm_compute; reflexivity|]. split; reflexivity.
Qed.

Lemma nth_error_middle {A} (pre rest : list A) (x : A) :
  nth_error (pre ++ x :: rest) (List.length pre) = Some x.
Proof.
  rewrite nth_error_app2 by lia. rewrite Nat.sub_diag. reflexivity.
Qed.

Lemma cut_middle {A} (pre rest : list A) (x : A) :
  firstn (List.length pre) (pre ++ x :: rest)
    ++ skipn (S (List.length pre)) (pre ++ x :: rest) = pre ++ rest.
Proof.
  induction pre as [|a pre IH]; simpl; [reflexivity|].
  f_equal. exact IH.
Qed.

(** The loop of the sweep with a limit of 0, from position
    [length pre] on, when the files still to be looked at can all be
    stat'ed and [fresh] tells which of them are not modified before
    the time of their check. *)
Lemma sweep_at_zero (w : World) (fresh : Tail -> bool) (rest : list Tail) :
  forall pre t fuel,
    FileFollowDuration (options t) = 0 ->
    tails t = pre ++ rest ->
    (List.length rest <= fuel)%nat ->
    (forall tl, In tl rest -> forall k, exists info,
       os_Stat w k (Filename tl) = inl info /\
       forall k',
         (fresh tl = false -> fi_ModTime info < time_Now w k') /\
         (fresh tl = true -> time_Now w k' <= fi_ModTime info)) ->
    exists t',
      sweep w fuel (List.length pre) t = Ret tt t' /\
      tails t' = pre ++ filter fresh rest /\
      stopped t' =
        stopped t ++ map tail_ptr (filter (fun tl => negb (fresh tl)) rest) /\
      options t' = options t.
Proof.
  induction rest as [|x rest IH]; intros pre t fuel Hzero Ht Hfuel Hfiles.
  - exists t. rewrite sweep_finished
      by (rewrite Ht, length_app; simpl; lia).
    simpl. rewrite !app_nil_r. rewrite app_nil_r in Ht. auto.
  - destruct fuel as [|fuel]; [simpl in Hfuel; lia|].
    destruct (Hfiles x (or_introl eq_refl) (calls t)) as [info [Hstat Hage]].
    destruct (Hage (S (calls t))) as [Hstale Hfresh].
    assert (Hlt : (List.length pre <? List.length (pre ++ x :: rest))%nat
                  = true)
      by (apply Nat.ltb_lt; rewrite length_app; simpl; lia).
    rewrite sweep_S. run. rewrite Ht, Hlt, nth_error_middle. run.
    rewrite Hstat. run. rewrite Hzero, Sub_gt_0.
    simpl filter.
    destruct (fresh x) eqn:Hx; simpl negb; cbv iota.
    + replace (fi_ModTime info <? time_Now w (S (calls t))) with false
        by (symmetry; apply Z.ltb_ge; apply Hfresh; reflexivity).
      run.
      match goal with
      | |- context [sweep w fuel (S (List.length pre)) ?s] =>
          destruct (IH (pre ++ [x]) s fuel)
            as [t' [E [Hn' [Hs' Ho]]]];
            [exact Hzero
            | simpl; rewrite Ht, <- app_assoc; reflexivity
            | simpl in Hfuel; lia
            | intros tl Hin; apply Hfiles; right; exact Hin |]
      end.
      exists t'. simpl in Hn', Hs', Ho.
      rewrite length_app in E. simpl in E. rewrite Nat.add_1_r in E.
      split; [exact E|].
      split; [rewrite Hn', <- app_assoc; reflexivity|]. auto.
    + replace (fi_ModTime info <? time_Now w (S (calls t))) with true
        by (symmetry; apply Z.ltb_lt; apply Hstale; reflexivity).
      run.
      rewrite delete_shift_spec by (rewrite length_app; simpl; lia).
      rewrite cut_middle. run.
      match goal with
      | |- context [sweep w fuel (List.length pre) ?s] =>
          destruct (IH pre s fuel) as [t' [E [Hn' [Hs' Ho]]]];
            [exact Hzero | reflexivity | simpl in Hfuel; lia
            | intros tl Hin; apply Hfiles; right; exact Hin |]
      end.
      exists t'. simpl in Hn', Hs', Ho.
      split; [exact E|]. split; [exact Hn'|]. split; [|exact Ho].
      rewrite Hs'. simpl. rewrite <- app_assoc. reflexivity.
Qed.

Lemma filter_none {A} (f : A -> bool) (l : list A) :
  (forall x, In x l -> f x = false) -> filter f l = [].
Proof.
  intros H. induction l as [|x l IH]; [reflexivity|].
  simpl. rewrite (H x (or_introl eq_refl)).
  apply IH. intros y Hy. apply H. right. exact Hy.
Qed.

Lemma filter_all {A} (f : A -> bool) (l : list A) :
  (forall x, In x l -> f x = true) -> filter f l = l.
Proof.
  intros H. induction l as [|x l IH]; [reflexivity|].
  simpl. rewrite (H x (or_introl eq_refl)). f_equal.
  apply IH. intros y Hy. apply H. right. exact Hy.
Qed.

(** C3, as the code has it.  With [FileFollowDuration] 0, a sweep tick
    during which every file of the pool can be stat'ed returns nil
    within as many iterations as the pool has handles.  It stops, once
    each and in pool order, the tailers of the handles whose file was
    modified strictly before the time of its check, and takes these out
    of the pool; a handle whose file is not strictly older than now
    (age 0, or a modification time ahead of the clock) is kept, in its
    old place among those kept.  When every file was modified strictly
    before now, the tailer of every handle is stopped once and the pool
    is left empty. *)
Theorem C3_sweep_with_threshold_zero (w : World) (t : Trail) (fuel : nat)
        (fresh : Tail -> bool) :
  FileFollowDuration (options t) = 0 ->
  (forall tl, In tl (tails t) -> forall k, exists info,
     os_Stat w k (Filename tl) = inl info /\
     forall k',
       (fresh tl = false -> fi_ModTime info < time_Now w k') /\
       (fresh tl = true -> time_Now w k' <= fi_ModTime info)) ->
  (List.length (tails t) <= fuel)%nat ->
  exists t',
    unfollowOldFiles w fuel t = Ret None t' /\
    tails t' = filter fresh (tails t) /\
    stopped t' =
      stopped t
      ++ map tail_ptr (filter (fun tl => negb (fresh tl)) (tails t)) /\
    (forall tl, In tl (tails t) -> fresh tl = true -> In tl (tails t')) /\
    ((forall tl, In tl (tails t) -> fresh tl = false) ->
     tails t' = [] /\
     stopped t' = stopped t ++ map tail_ptr (tails t)).
Proof.
  intros Hzero Hfiles Hfuel.
  destruct (sweep_at_zero w fresh (tails t) []
              (logged_more (DebugLevel, "starting...unfollow old files") t)
              fuel Hzero eq_refl Hfuel Hfiles)
    as [t1 [E [Hn [Hs _]]]].
  destruct (unfollowOldFiles_after_sweep w fuel t t1 E) as [t' [E' Q]].
  destruct Q as [_ [Qt [_ [_ [_ [Qs _]]]]]].
  simpl in Hn, Hs.
  exists t'. split; [exact E'|].
  split; [congruence|]. split; [congruence|]. split.
  - intros tl Hin Hfresh. rewrite Qt, Hn. apply filter_In. auto.
  - intros Hall. rewrite Qt, Qs, Hn, Hs.
    rewrite (filter_none fresh (tails t) Hall).
    rewrite (filter_all (fun tl => negb (fresh tl)) (tails t)); [auto|].
    intros tl Hin. rewrite (Hall tl Hin). reflexivity.
Qed.

(** A pool of two handles: the file of the first was written to ten
    nanoseconds ago, that of the second carries a time ahead of the
    clock.  The first is evicted, the second kept. *)
Lemma C3_sweep_with_threshold_zero_witness :
  exists t',
    unfollowOldFiles mixed_world 2 mixed_pool = Ret None t' /\
    map Filename (tails t') = [current_log] /\
    stopped t' = [0%nat].
Proof.
  destruct (C3_sweep_with_threshold_zero mixed_world mixed_pool 2
              (fun tl => String.eqb (Filename tl) current_log))
    as [t' [E [Hn [Hs _]]]].
  - reflexivity.
  - intros tl Hin k. simpl in Hin. destruct Hin as [<-|[<-|[]]].
    + eexists. split; [reflexivity|]. intros k'. simpl.
      split; [intros _; lia | discriminate].
    + eexists. split; [reflexivity|]. intros k'. simpl.
      split; [discriminate | intros _; lia].
  - simpl. lia.
  - exists t'. split; [exact E|].
    split; [rewrite Hn; reflexivity | rewrite Hs; reflexivity].
Defined.

(** Where the file of a handle cannot be stat'ed, the loop logs the
    error and looks at the same handle again. *)
Lemma sweep_stat_fails (w : World) (i : nat) (tl : Tail) :
  (forall k, exists e, os_Stat w k (Filename tl) = inr e) ->
  forall fuel t,
    nth_error (tails t) i = Some tl -> sweep w fuel i t = OutOfFuel.
Proof.
  intros Hfail. induction fuel as [|fuel IH]; intros t Hi.
  - assert (Hlt : (i <? List.length (tails t))%nat = true).
    { apply Nat.ltb_lt. apply nth_error_Some. congruence. }
    simpl. run. rewrite Hlt. reflexivity.
  - assert (Hlt : (i <? List.length (tails t))%nat = true).
    { apply Nat.ltb_lt. apply nth_error_Some. congruence. }
    rewrite sweep_S. run. rewrite Hlt. rewrite Hi. run.
    destruct (Hfail (calls t)) as [e He]. rewrite He. run.
    apply IH. exact Hi.
Qed.

(** C10, on the code.  When the file of the first handle of the pool
    cannot be stat'ed, [unfollowOldFiles] does not return nil: its loop
    logs the error without moving on to the next handle, so no number
    of iterations brings it to its end. *)
Theorem C10_sweep_does_not_return (w : World) (t : Trail) (tl : Tail) :
  nth_error (tails t) 0 = Some tl ->
  (forall k, exists e, os_Stat w k (Filename tl) = inr e) ->
  forall fuel, unfollowOldFiles w fuel t = OutOfFuel.
Proof.
  intros Hhd Hfail fuel. unfold unfollowOldFiles.
  erewrite bind_Ret by reflexivity.
  unfold bind at 1.
  rewrite (sweep_stat_fails w 0 tl Hfail); [reflexivity | exact Hhd].
Qed.

Lemma C10_sweep_does_not_return_witness :
  unfollowOldFiles (world_without_files 2000 []) 1000 following_current
  = OutOfFuel.
Proof.
  apply (C10_sweep_does_not_return (world_without_files 2000 [])
           following_current current_handle).
  - reflexivity.
  - intros k. eexists. reflexivity.
Defined.

(* ================================================================== *)
(** ** Shutdown *)

Lemma eventLoop_done_run (t : Trail) :
  eventLoop_done t =
  Ret tt (mkTrail (options t) (tails t) Ended Exited (calls t) (allocated t)
            (stopped t ++ map tail_ptr (tails t)) (logged t) (handled t)).
Proof.
  unfold eventLoop_done.
  erewrite bind_Ret by reflexivity.
  erewrite bind_Ret by reflexivity.
  cbv beta.
  erewrite bind_Ret by apply for_each_Stop.
  reflexivity.
Qed.

Lemma End_running (t : Trail) :
  done t = Running ->
  End t =
  Ret tt (mkTrail (options t) (tails t) Ended Exited (calls t) (allocated t)
            (stopped t ++ map tail_ptr (tails t))
            (logged t ++ [(InfoLevel, "Stopping...")]) (handled t)).
Proof.
  intros H. unfold End.
  erewrite bind_Ret by reflexivity.
  unfold send_done. simpl done. rewrite H.
  rewrite eventLoop_done_run. reflexivity.
Qed.

Lemma End_not_running (t : Trail) :
  done t <> Running ->
  End t = Blocked (logged_more (InfoLevel, "Stopping...") t).
Proof.
  intros H. unfold End.
  erewrite bind_Ret by reflexivity.
  unfold send_done, logged_more. simpl done.
  destruct (done t); [reflexivity | congruence | reflexivity].
Qed.

Lemma task_run (w : World) (fuel : nat) (t t' : Trail) :
  unfollowOldFiles w fuel (logged_more (DebugLevel, "task running...") t)
    = Ret None t' ->
  task w fuel t = Ret tt t'.
Proof.
  intros E. unfold task.
  erewrite bind_Ret by reflexivity.
  erewrite bind_Ret by exact E.
  reflexivity.
Qed.

(** A second [End] does not return, and a sweep tick after [End] still
    takes a handle out of the pool. *)
Lemma C4_End_twice_blocks_and_sweeper_runs :
  exists t0 t1 t2,
    Follow app_dir accept_all sample_trail = Ret None t0 /\
    End t0 = Ret tt t1 /\
    End t1 = Blocked (logged_more (InfoLevel, "Stopping...") t1) /\
    task app_dir 1 t1 = Ret tt t2 /\
    tails t1 = [mkTail 0 current_log (tailConfig false false)] /\
    tails t2 = [] /\
    stopped t2 = [0%nat; 0%nat].
Proof.
  eexists. eexists. eexists.
  split; [vm_compute; reflexivity|].
  split; [vm_compute; reflexivity|].
  split; [vm_compute; reflexivity|].
  split; [vm_compute; reflexivity|].
  split; [reflexivity|]. split; reflexivity.
Qed.

(** The sweeper that is still scheduled after [End] has returned takes
    the handle out of the pool at its next tick. *)
Example AddUnfollower_after_End :
  exists t0 t1 t2,
    Follow app_dir accept_all sample_trail = Ret None t0 /\
    End t0 = Ret tt t1 /\
    AddUnfollower app_dir (fun _ => "0s"%string) 1 1 t1 = Blocked t2 /\
    tails t1 = [current_handle] /\
    tails t2 = [].
Proof.
  eexists. eexists. eexists.
  split; [vm_compute; reflexivity|].
  split; [vm_compute; reflexivity|].
  split; [vm_compute; reflexivity|].
  split; reflexivity.
Qed.

(** C4, as the code has it.  [End] is not guarded.  On a trail whose
    event loop is running it hands the shutdown signal to the loop,
    which ends the watcher, calls [Stop] on the tailer of every handle
    of the pool and exits; the pool keeps its handles and no line is
    given to the handler.  [End] on a trail whose loop is not running,
    so also a second [End], blocks for ever.  The sweeper is not
    stopped: a tick after [End] over stale files stops the tailers
    again and empties the pool. *)
Theorem C4_End_unguarded (t : Trail) :
  (done t = Running ->
   exists t',
     End t = Ret tt t' /\
     done t' = Exited /\ watcher t' = Ended /\
     tails t' = tails t /\
     stopped t' = stopped t ++ map tail_ptr (tails t) /\
     handled t' = handled t /\
     End t' = Blocked (logged_more (InfoLevel, "Stopping...") t') /\
     forall w fuel,
       all_stale w (FileFollowDuration (options t)) (tails t) ->
       (List.length (tails t) <= fuel)%nat ->
       exists t'',
         task w fuel t' = Ret tt t'' /\
         tails t'' = [] /\
         stopped t'' = stopped t' ++ map tail_ptr (tails t))
  /\ (done t <> Running ->
      End t = Blocked (logged_more (InfoLevel, "Stopping...") t)).
Proof.
  split.
  - intros Hrun. eexists. split; [apply End_running; exact Hrun|].
    do 5 (split; [reflexivity|]). split.
    + apply End_not_running. simpl. discriminate.
    + intros w fuel Hall Hfuel.
      match goal with
      | |- context [task w fuel ?s] =>
          destruct (unfollowOldFiles_evicts_all w
                      (logged_more (DebugLevel, "task running...") s) fuel)
            as [t'' [E [Hn Hs]]]; [exact Hall | exact Hfuel |]
      end.
      exists t''. split; [apply task_run; exact E|].
      split; [exact Hn | exact Hs].
  - apply End_not_running.
Qed.

Lemma C4_End_unguarded_witness :
  End sample_trail
  = Blocked (logged_more (InfoLevel, "Stopping...") sample_trail).
Proof.
  apply (C4_End_unguarded sample_trail). simpl. discriminate.
Defined.

(* ================================================================== *)
(** ** Lines *)

Lemma deliver_nil (t : Trail) : deliver [] t = t.
Proof. unfold deliver. rewrite app_nil_r. apply trail_eta. Qed.

Lemma deliver_app (l1 l2 : list Line) (t : Trail) :
  deliver l2 (deliver l1 t) = deliver (l1 ++ l2) t.
Proof. unfold deliver. simpl. rewrite app_assoc. reflexivity. Qed.

(** The follower's loop gives every line of the tailer to the handler,
    in order, and does nothing else. *)
Lemma followLines_run (path : string) (handler : LineHandler)
      (lines : list TailLine) :
  forall t,
    followLines path handler lines t
    = Ret tt (deliver (map (toLine path) lines) t).
Proof.
  unfold followLines.
  induction lines as [|x lines IH]; intros t.
  - simpl. rewrite deliver_nil. reflexivity.
  - simpl for_each. erewrite bind_Ret by reflexivity.
    rewrite IH. simpl map.
    change (toLine path x :: map (toLine path) lines)
      with ([toLine path x] ++ map (toLine path) lines).
    rewrite <- deliver_app. reflexivity.
Qed.

(** After a line with an error the follower gives the next line to the
    handler as well, and its handle is in the pool as before. *)
Lemma C8_follower_survives_error_line :
  exists t',
    followLines current_log accept_all [throttled; hello] following_current
      = Ret tt t' /\
    handled t' = [toLine current_log throttled; toLine current_log hello] /\
    Err (toLine current_log throttled) <> None /\
    tails t' = [current_handle].
Proof.
  eexists. split; [vm_compute; reflexivity|].
  split; [reflexivity|]. split; [discriminate | reflexivity].
Qed.

(** C8, as the code has it.  A line of the tailing unit that carries an
    error is given to the handler as a [Line] with the same error in
    its [Err] field, like every other line; the follower goes on with
    the lines that come after it until the tailing unit closes the
    channel, and the pool is not changed by any of this. *)
Theorem C8_error_lines_are_delivered (path : string) (handler : LineHandler)
        (lines : list TailLine) (t : Trail) :
  exists t',
    followLines path handler lines t = Ret tt t' /\
    handled t' = handled t ++ map (toLine path) lines /\
    (forall line, In line lines ->
       In (toLine path line) (handled t') /\
       Err (toLine path line) = tl_Err line /\
       Path (toLine path line) = path) /\
    tails t' = tails t /\ stopped t' = stopped t.
Proof.
  exists (deliver (map (toLine path) lines) t).
  split; [apply followLines_run|]. split; [reflexivity|].
  split; [|split; reflexivity].
  intros line Hin. split; [|split; reflexivity].
  simpl. apply in_or_app. right. apply in_map. exact Hin.
Qed.

(** The handler fails on the line, and nothing is logged. *)
Lemma C9_handler_error_is_not_logged :
  exists t',
    followLines current_log reject_all [hello] following_current = Ret tt t' /\
    reject_all (toLine current_log hello) = Some "handler failed"%string /\
    logged following_current = [] /\
    logged t' = [].
Proof.
  eexists. split; [vm_compute; reflexivity|].
  split; [reflexivity|]. split; reflexivity.
Qed.

(** C9, as the code has it.  For every line of the tailing unit the
    handler is called once, in the order of the lines, each call
    returning before the next line is taken.  What the handler returns
    is dropped: an error is not logged and does not end the follower,
    which goes on to the next line and returns when the lines end. *)
Theorem C9_handler_once_per_line (path : string) (handler : LineHandler)
        (lines : list TailLine) (t : Trail) :
  exists t',
    followLines path handler lines t = Ret tt t' /\
    handled t' = handled t ++ map (toLine path) lines /\
    logged t' = logged t /\
    forall other : LineHandler,
      final (followLines path other lines t) = Some t'.
Proof.
  exists (deliver (map (toLine path) lines) t).
  split; [apply followLines_run|]. split; [reflexivity|].
  split; [reflexivity|].
  intros other. rewrite followLines_run. reflexivity.
Qed.

(* ================================================================== *)
(** ** Further properties of the event loop *)

(** One event, case by case. *)
Lemma event_run (w : World) (handler : LineHandler) (ev : FileEvent)
      (t : Trail) :
  exists b t1 t',
    ignore w (ev_Path ev) t = Ret b t1 /\ quiet t t1 /\
    eventLoop_event w handler ev t = Ret tt t' /\
    (b = true -> t' = t1) /\
    (b = false -> ev_Op ev = fsnotify.Create ->
     tails t' = tails t ++ opened w t1 (ev_Path ev) true /\
     same_control t t') /\
    (b = false -> ev_Op ev = fsnotify.Remove ->
     tails t' = tails t /\
     stopped t' =
       stopped t ++ map tail_ptr (handles_of (ev_Path ev) (tails t))) /\
    (b = false -> ev_Op ev <> fsnotify.Create ->
     ev_Op ev <> fsnotify.Remove -> quiet t t').
Proof.
  destruct ev as [path op]. simpl ev_Path. simpl ev_Op.
  destruct (ignore_total w path t) as [b [t1 [E Q]]].
  destruct (Z.eq_dec op fsnotify.Create) as [Hc|Hc].
  { subst op.
    destruct (create_run w handler path t) as [b' [t1' [t' [E1 [E' [Hn Hs]]]]]].
    rewrite E in E1. injection E1 as <- <-.
    exists b, t1, t'. split; [exact E|]. split; [exact Q|].
    split; [exact E'|]. split; [|split; [|split]].
    - intros ->. unfold eventLoop_event, create_event in E'. simpl in E'.
      rewrite (bind_Ret _ _ _ _ _ E) in E'. unfold ret in E'.
      injection E' as <-. reflexivity.
    - intros -> _. auto.
    - intros _ H. discriminate H.
    - intros _ H. congruence. }
  destruct (Z.eq_dec op fsnotify.Remove) as [Hr|Hr].
  { subst op.
    destruct (remove_run w handler path t) as [b' [t1' [t' [E1 [E' [Hn Hs]]]]]].
    rewrite E in E1. injection E1 as <- <-.
    exists b, t1, t'. split; [exact E|]. split; [exact Q|].
    split; [exact E'|]. split; [|split; [|split]].
    - intros ->. unfold eventLoop_event, remove_event in E'. simpl in E'.
      rewrite (bind_Ret _ _ _ _ _ E) in E'. unfold ret in E'.
      injection E' as <-. reflexivity.
    - intros _ H. discriminate H.
    - intros -> _. auto.
    - intros _ _ H. congruence. }
  unfold eventLoop_event. simpl ev_Path. simpl ev_Op.
  rewrite (bind_Ret _ _ _ _ _ E).
  apply Z.eqb_neq in Hc. apply Z.eqb_neq in Hr. rewrite Hc, Hr.
  destruct b.
  - exists true, t1, t1. split; [exact E|]. split; [exact Q|].
    split; [reflexivity|]. split; [reflexivity|].
    split; [discriminate|]. split; [discriminate|]. discriminate.
  - assert (Hq : forall msg t2, log DebugLevel msg t1 = Ret tt t2 -> quiet t t2).
    { intros msg t2 H. unfold log in H. injection H as <-.
      unfold quiet in *. simpl. exact Q. }
    destruct (op =? fsnotify.Rename); [|destruct (op =? fsnotify.Write)];
      (eexists false, t1, _; split; [exact E|]; split; [exact Q|];
       split; [reflexivity|]; split; [discriminate|];
       split; [intros _ H; apply Z.eqb_neq in Hc; congruence|];
       split; [intros _ H; apply Z.eqb_neq in Hr; congruence|];
       intros _ _ _; eapply Hq; reflexivity).
Qed.

(** What one event does to the pool: it stays, or grows by one handle
    in new mode for the path of a [Create] event. *)
Lemma event_extends (w : World) (handler : LineHandler) (ev : FileEvent)
      (t : Trail) :
  exists t' new,
    eventLoop_event w handler ev t = Ret tt t' /\
    tails t' = tails t ++ new /\
    (List.length new <= List.length (creates [ev]))%nat /\
    Forall (fun tl => Filename tl = ev_Path ev /\ new_mode tl) new.
Proof.
  destruct (event_run w handler ev t)
    as [b [t1 [t' [E [Q [E' [Ht [Hc [Hr Ho]]]]]]]]].
  destruct b.
  - exists t', []. rewrite (Ht eq_refl), app_nil_r.
    split; [rewrite <- (Ht eq_refl); exact E'|].
    split; [unfold quiet in Q; tauto|]. split; [simpl; lia | constructor].
  - destruct (Z.eq_dec (ev_Op ev) fsnotify.Create) as [Hop|Hop].
    + destruct (Hc eq_refl Hop) as [Hn _].
      exists t', (opened w t1 (ev_Path ev) true).
      split; [exact E'|]. split; [exact Hn|]. split.
      * unfold creates. simpl. rewrite Hop. simpl.
        unfold opened. destruct (tail_TailFile _ _ _ _); simpl; lia.
      * exact (opened_mode w t1 (ev_Path ev) true).
    + exists t', []. rewrite app_nil_r. split; [exact E'|].
      split; [|split; [simpl; lia | constructor]].
      destruct (Z.eq_dec (ev_Op ev) fsnotify.Remove) as [Hrm|Hrm].
      * apply (Hr eq_refl Hrm).
      * destruct (Ho eq_refl Hop Hrm) as [_ [H _]]. exact H.
Qed.

(** X1.  Whatever events the loop receives, in whatever order, the pool
    afterwards is the pool before with new handles added at its end:
    no event takes a handle out.  There are at most as many new handles
    as there were [Create] events, and each is in new mode for the path
    of one of the events. *)
Theorem eventLoop_only_adds (w : World) (handler : LineHandler)
        (events : list FileEvent) (t : Trail) :
  exists t' new,
    eventLoop w handler events t = Ret tt t' /\
    tails t' = tails t ++ new /\
    (List.length new <= List.length (creates events))%nat /\
    Forall (fun tl => new_mode tl /\
                      exists ev, In ev events /\ ev_Path ev = Filename tl) new.
Proof.
  revert t. induction events as [|ev events IH]; intros t.
  - exists t, []. rewrite app_nil_r.
    split; [reflexivity|]. split; [reflexivity|].
    split; [simpl; lia | constructor].
  - destruct (event_extends w handler ev t) as [t1 [new1 [E1 [Hn1 [Hl1 Hf1]]]]].
    destruct (IH t1) as [t' [new [E [Hn [Hl Hf]]]]].
    exists t', (new1 ++ new). unfold eventLoop in *. simpl for_each.
    rewrite (bind_Ret _ _ _ _ _ E1).
    split; [exact E|]. split; [rewrite Hn, Hn1, app_assoc; reflexivity|].
    split.
    + rewrite length_app. unfold creates in *. simpl filter in *.
      destruct (ev_Op ev =? fsnotify.Create); simpl in *; lia.
    + apply Forall_app. split.
      * eapply Forall_impl; [|exact Hf1]. simpl. intros tl [Hp Hm].
        split; [exact Hm|]. exists ev. auto.
      * eapply Forall_impl; [|exact Hf]. simpl.
        intros tl [Hm [ev' [Hin Hp]]].
        split; [exact Hm|]. exists ev'. auto.
Qed.

(** X2.  An event whose operation is not exactly [Create] starts no
    follower: the pool, the count of tailers and the handler trace are
    as before.  This holds for masks that contain the bit of [Create]
    among others, as the switch compares for equality.  When the
    operation is not [Remove] either, no tailer is stopped. *)
Theorem event_other_than_create (w : World) (handler : LineHandler)
        (ev : FileEvent) (t : Trail) :
  ev_Op ev <> fsnotify.Create ->
  exists t',
    eventLoop_event w handler ev t = Ret tt t' /\
    tails t' = tails t /\ allocated t' = allocated t /\
    handled t' = handled t /\
    (ev_Op ev <> fsnotify.Remove -> stopped t' = stopped t).
Proof.
  intros Hop.
  destruct (event_run w handler ev t)
    as [b [t1 [t' [E [Q [E' [Ht [_ [Hr Ho]]]]]]]]].
  exists t'. split; [exact E'|].
  destruct b.
  - rewrite (Ht eq_refl). unfold quiet in Q. tauto.
  - destruct (Z.eq_dec (ev_Op ev) fsnotify.Remove) as [Hrm|Hrm].
    + destruct (Hr eq_refl Hrm) as [Hn _].
      split; [exact Hn|].
      assert (Hrun := remove_run w handler (ev_Path ev) t).
      destruct ev as [path op]. simpl in *. subst op.
      unfold remove_event in Hrun.
      destruct Hrun as [b' [t1' [t'' [_ [E'' _]]]]].
      rewrite E' in E''. injection E'' as <-.
      unfold eventLoop_event in E'. simpl in E'.
      rewrite (bind_Ret _ _ _ _ _ E) in E'.
      unfold bind at 1, Debugln at 1, log at 1 in E'.
      erewrite bind_Ret in E' by apply unfollowFile_run.
      unfold ret in E'. injection E' as <-. simpl.
      unfold quiet in Q. split; [tauto|]. split; [tauto|]. congruence.
    + destruct (Ho eq_refl Hop Hrm) as [_ [H1 [_ [_ [H2 [H3 H4]]]]]].
      auto.
Qed.

Lemma event_other_than_create_witness :
  exists t',
    eventLoop_event fresh_world accept_all (create_and_write current_log)
      sample_trail = Ret tt t' /\
    tails t' = [].
Proof.
  destruct (event_other_than_create fresh_world accept_all
              (create_and_write current_log) sample_trail)
    as [t' [E [Hn _]]].
  - vm_compute. discriminate.
  - exists t'. split; [exact E | exact Hn].
Defined.

(** X3.  An event for a path that the policy ignores is dropped
    whatever its operation, [Remove] of a followed file included: all
    it leaves behind is what the screening itself did, a stat and
    perhaps a line in the log. *)
Theorem event_for_ignored_path (w : World) (handler : LineHandler)
        (ev : FileEvent) (t : Trail) :
  value (ignore w (ev_Path ev) t) = Some true ->
  exists t',
    eventLoop_event w handler ev t = Ret tt t' /\
    final (ignore w (ev_Path ev) t) = Some t' /\
    quiet t t'.
Proof.
  intros Hig.
  destruct (event_run w handler ev t)
    as [b [t1 [t' [E [Q [E' [Ht _]]]]]]].
  rewrite E in Hig. simpl in Hig. injection Hig as ->.
  exists t'. rewrite (Ht eq_refl) in *.
  split; [exact E'|]. split; [rewrite E; reflexivity | exact Q].
Qed.

Lemma event_for_ignored_path_witness :
  exists t',
    eventLoop_event stale_world accept_all (remove_event current_log)
      following_current = Ret tt t' /\
    stopped t' = [] /\ tails t' = [current_handle].
Proof.
  destruct (event_for_ignored_path stale_world accept_all
              (remove_event current_log) following_current)
    as [t' [E [_ Q]]].
  - vm_compute. reflexivity.
  - exists t'. split; [exact E|].
    destruct Q as [_ [Qt [_ [_ [_ [Qs _]]]]]]. split; [exact Qs | exact Qt].
Defined.

(** X4.  When one of the three patterns decides that a path is
    ignored, [ignore] answers without looking at the file: no stat, no
    clock reading, no line in the log; the state is untouched. *)
Theorem ignore_by_pattern_costs_nothing (w : World) (path : string)
        (t : Trail) :
  rule_path t path \/ rule_file t path \/ rule_exclude t path ->
  ignore w path t = Ret true t.
Proof.
  unfold rule_path, rule_file, rule_exclude.
  rewrite <- !set_and_no_match_iff, <- set_and_match_iff.
  intros H. unfold ignore, bind, get_options.
  destruct (set_and_no_match (PathReg _) _); [reflexivity|].
  destruct (set_and_no_match (FileReg _) _); [reflexivity|].
  destruct (set_and_match _ _); [reflexivity|].
  destruct H as [H|[H|H]]; discriminate H.
Qed.

Lemma ignore_by_pattern_costs_nothing_witness :
  ignore stale_world "/other/b.log" (policy_trail false hour 0)
  = Ret true (policy_trail false hour 0).
Proof.
  apply (ignore_by_pattern_costs_nothing stale_world "/other/b.log"
           (policy_trail false hour 0)).
  left. exists re_app_logs. split; reflexivity.
Defined.

(* ================================================================== *)
(** ** Further properties of following and unfollowing *)

Lemma handles_of_none (name : string) (l : list Tail) :
  (forall tl, In tl l -> Filename tl <> name) -> handles_of name l = [].
Proof.
  intros H. induction l as [|x l IH]; [reflexivity|].
  unfold handles_of in *. simpl.
  destruct (String.eqb (Filename x) name) eqn:E.
  - apply String.eqb_eq in E. exfalso. apply (H x); simpl; auto.
  - apply IH. intros tl Hin. apply H. simpl. auto.
Qed.

(** X5.  [unfollowFile] calls [Stop] once on every handle of the pool
    whose file name is the given one, in pool order, so on each of
    several handles for one path; it returns nil and does nothing else.
    For a name that no handle has, the state afterwards is the state
    before. *)
Theorem unfollowFile_stops_every_match (name : string) (t : Trail) :
  exists t',
    unfollowFile name t = Ret None t' /\
    stopped t' = stopped t ++ map tail_ptr (handles_of name (tails t)) /\
    Forall (fun tl => Filename tl = name /\ In tl (tails t))
           (handles_of name (tails t)) /\
    ((forall tl, In tl (tails t) -> Filename tl <> name) -> t' = t).
Proof.
  exists (stop_all (handles_of name (tails t)) t).
  split; [apply unfollowFile_run|]. split; [reflexivity|]. split.
  - apply Forall_forall. intros tl Hin. unfold handles_of in Hin.
    apply filter_In in Hin. destruct Hin as [Hin E].
    apply String.eqb_eq in E. auto.
  - intros H. rewrite (handles_of_none name (tails t) H). apply stop_all_nil.
Qed.

Lemma unfollowFile_stops_every_match_witness :
  unfollowFile "/var/log/app/other.log" following_current
  = Ret None following_current.
Proof.
  destruct (unfollowFile_stops_every_match "/var/log/app/other.log"
              following_current) as [t' [E [_ [_ H]]]].
  rewrite E. f_equal. apply H.
  intros tl [<-|[]]. vm_compute. discriminate.
Defined.

(** X6.  The three statements with which [unfollowOldFiles] takes
    position [i] out of the pool remove exactly that element: what was
    before it and what was after it stay, in order, and the pool is one
    shorter.  At a position outside the pool they panic. *)
Theorem delete_shift_removes_position {A} (i : nat) (s : list A) :
  ((i < List.length s)%nat ->
   exists l,
     Slice.delete_shift i s = Some l /\
     l = firstn i s ++ skipn (S i) s /\
     S (List.length l) = List.length s /\
     (forall j, (j < i)%nat -> nth_error l j = nth_error s j) /\
     (forall j, (i <= j)%nat -> nth_error l j = nth_error s (S j)))
  /\ ((List.length s <= i)%nat -> Slice.delete_shift i s = None).
Proof.
  split.
  - intros Hi. exists (firstn i s ++ skipn (S i) s).
    split; [apply delete_shift_spec; exact Hi|]. split; [reflexivity|].
    assert (Hf : List.length (firstn i s) = i)
      by (rewrite length_firstn; lia).
    split; [|split].
    + rewrite length_app, Hf, length_skipn. lia.
    + intros j Hj. rewrite nth_error_app1 by lia.
      rewrite nth_error_firstn.
      replace (j <? i)%nat with true by (symmetry; apply Nat.ltb_lt; exact Hj).
      reflexivity.
    + intros j Hj. rewrite nth_error_app2 by lia.
      rewrite Hf, nth_error_skipn. f_equal. lia.
  - intros Hi. unfold Slice.delete_shift, Slice.from.
    destruct (i <=? List.length s)%nat; [|reflexivity].
    replace (S i <=? List.length s)%nat with false; [reflexivity|].
    symmetry. apply Nat.leb_gt. lia.
Qed.

Lemma delete_shift_removes_position_witness :
  Slice.delete_shift 1 [10; 20; 30] = Some [10; 30] /\
  Slice.delete_shift 3 [10; 20; 30] = None.
Proof.
  split.
  - destruct (proj1 (delete_shift_removes_position 1 [10; 20; 30]))
      as [l [E [Hl _]]]; [simpl; lia|].
    rewrite E, Hl. reflexivity.
  - apply (proj2 (delete_shift_removes_position 3 [10; 20; 30])).
    simpl. lia.
Defined.

(** X7.  When the tail library refuses the file, [followFile] gives up
    without a word: the pool is as before, no tailer exists, and the
    log holds the debug lines written before the attempt and nothing
    about the error. *)
Theorem followFile_refused (w : World) (path : string)
        (handler : LineHandler) (isNew : bool) (t : Trail) (e : error) :
  tail_TailFile w (calls t) path (tailConfig (PollChanges (options t)) isNew)
    = Some e ->
  exists t',
    followFile w path handler isNew t = Ret tt t' /\
    tails t' = tails t /\ allocated t' = allocated t /\
    stopped t' = stopped t /\ handled t' = handled t /\
    logged t' = logged t ++ follow_log (options t) path.
Proof.
  intros He.
  unfold followFile, follow_log, bind, get_options, Debugln, log, TailFile,
    get_tails, set_tails.
  simpl.
  destruct (PollChanges (options t)); simpl; rewrite He; simpl;
    eexists; (split; [reflexivity|]); simpl;
    rewrite <- ?app_assoc; simpl; tauto.
Qed.

Lemma followFile_refused_witness :
  exists t',
    followFile refusing_world current_log accept_all true sample_trail
      = Ret tt t' /\
    tails t' = [] /\
    logged t' = [(DebugLevel, "Following: /var/log/app/current.log"%string)].
Proof.
  destruct (followFile_refused refusing_world current_log accept_all true
              sample_trail "too many open files"%string)
    as [t' [E [Hn [_ [_ [_ Hl]]]]]].
  - reflexivity.
  - exists t'. split; [exact E|]. split; [exact Hn | exact Hl].
Defined.

(* ================================================================== *)
(** ** The sweep and the initial listing in a steady world *)

(** The loop of the sweep from position [length pre] on, when the
    files still to be looked at can all be stat'ed. *)
Lemma sweep_steady (w : World) (Hw : steady w) (rest : list Tail) :
  forall pre t fuel,
    tails t = pre ++ rest ->
    (List.length rest <= fuel)%nat ->
    (forall tl, In tl rest ->
       exists info, os_Stat w 0 (Filename tl) = inl info) ->
    exists t',
      sweep w fuel (List.length pre) t = Ret tt t' /\
      tails t' =
        pre ++ filter (fun tl => negb (stale w (options t) tl)) rest /\
      stopped t' =
        stopped t ++ map tail_ptr (filter (stale w (options t)) rest) /\
      options t' = options t /\ handled t' = handled t /\
      allocated t' = allocated t.
Proof.
  induction rest as [|x rest IH]; intros pre t fuel Ht Hfuel Hstat.
  - exists t. rewrite sweep_finished
      by (rewrite Ht, length_app; simpl; lia).
    simpl. rewrite !app_nil_r. rewrite app_nil_r in Ht. repeat split; auto.
  - destruct fuel as [|fuel]; [simpl in Hfuel; lia|].
    destruct (Hstat x (or_introl eq_refl)) as [info Hinfo].
    destruct (Hw (calls t)) as [_ [Hs _]].
    destruct (Hw (S (calls t))) as [Hn _].
    assert (Hlt : (List.length pre <? List.length (pre ++ x :: rest))%nat
                  = true)
      by (apply Nat.ltb_lt; rewrite length_app; simpl; lia).
    rewrite sweep_S. run. rewrite Ht, Hlt, nth_error_middle. run.
    rewrite Hs, Hinfo. run. rewrite Hn.
    assert (Hold : stale w (options t) x
                   = (Sub (time_Now w 0) (fi_ModTime info)
                        >? FileFollowDuration (options t)))
      by (unfold stale, old_now; rewrite Hinfo; reflexivity).
    simpl filter. rewrite <- Hold.
    destruct (stale w (options t) x); run.
    + rewrite delete_shift_spec by (rewrite length_app; simpl; lia).
      rewrite cut_middle. run.
      match goal with
      | |- context [sweep w fuel (List.length pre) ?s] =>
          destruct (IH pre s fuel) as [t' [E [Hn' [Hs' [Ho [Hh Ha]]]]]];
            [reflexivity | simpl in Hfuel; lia
            | intros tl Hin; apply Hstat; right; exact Hin |]
      end.
      exists t'. simpl in Hn', Hs', Ho, Hh, Ha.
      split; [exact E|].
      split; [exact Hn'|]. split; [|auto].
      rewrite Hs'. simpl. rewrite <- app_assoc. reflexivity.
    + match goal with
      | |- context [sweep w fuel (S (List.length pre)) ?s] =>
          destruct (IH (pre ++ [x]) s fuel)
            as [t' [E [Hn' [Hs' [Ho [Hh Ha]]]]]];
            [simpl; rewrite Ht, <- app_assoc; reflexivity
            | simpl in Hfuel; lia
            | intros tl Hin; apply Hstat; right; exact Hin |]
      end.
      exists t'. simpl in Hn', Hs', Ho, Hh, Ha.
      rewrite length_app in E. simpl in E. rewrite Nat.add_1_r in E.
      split; [exact E|].
      split; [rewrite Hn', <- app_assoc; reflexivity|]. auto.
Qed.

(** X8.  In a steady world where every file of the pool can be stat'ed,
    a sweep tick returns nil within as many iterations as the pool has
    handles; it stops exactly the handles whose file is older than
    [FileFollowDuration], once each, and the pool afterwards holds the
    other handles in their old order.  No follower is started and no
    line is handled. *)
Theorem sweep_keeps_fresh_files (w : World) (t : Trail) (fuel : nat) :
  steady w ->
  (forall tl, In tl (tails t) ->
     exists info, os_Stat w 0 (Filename tl) = inl info) ->
  (List.length (tails t) <= fuel)%nat ->
  exists t',
    unfollowOldFiles w fuel t = Ret None t' /\
    tails t' = filter (fun tl => negb (stale w (options t) tl)) (tails t) /\
    stopped t' =
      stopped t ++ map tail_ptr (filter (stale w (options t)) (tails t)) /\
    handled t' = handled t /\ allocated t' = allocated t.
Proof.
  intros Hw Hstat Hfuel.
  destruct (sweep_steady w Hw (tails t) []
              (logged_more (DebugLevel, "starting...unfollow old files") t)
              fuel eq_refl Hfuel Hstat)
    as [t1 [E [Hn [Hs [Ho [Hh Ha]]]]]].
  destruct (unfollowOldFiles_after_sweep w fuel t t1 E) as [t' [E' Q]].
  exists t'. split; [exact E'|].
  destruct Q as [_ [Qt [_ [_ [Qa [Qs Qh]]]]]].
  simpl in Hn, Hs, Hh, Ha.
  rewrite Qt, Qs, Qh, Qa. auto.
Qed.

Lemma sweep_keeps_fresh_files_witness :
  exists t',
    unfollowOldFiles two_logs 2 two_followed = Ret None t' /\
    map Filename (tails t') = [current_log] /\
    stopped t' = [0%nat].
Proof.
  destruct (sweep_keeps_fresh_files two_logs two_followed 2)
    as [t' [E [Hn [Hs _]]]].
  - intros k. repeat split.
  - intros tl Hin. simpl. destruct (String.eqb _ _); eexists; reflexivity.
  - simpl. lia.
  - exists t'. split; [exact E|]. split; [rewrite Hn; reflexivity | exact Hs].
Defined.











(** In a steady world the sweep does not get past a handle whose file
    cannot be stat'ed, wherever in the pool it is. *)
Lemma sweep_stuck_steady (w : World) (Hw : steady w) (rest : list Tail) :
  forall pre t fuel,
    tails t = pre ++ rest ->
    (exists tl e, In tl rest /\ os_Stat w 0 (Filename tl) = inr e) ->
    sweep w fuel (List.length pre) t = OutOfFuel.
Proof.
  induction rest as [|x rest IH]; intros pre t fuel Ht [tl [e [Hin He]]].
  - destruct Hin.
  - destruct (os_Stat w 0 (Filename x)) as [info|e'] eqn:Hx.
    + destruct Hin as [->|Hin]; [congruence|].
      assert (Hlt : (List.length pre <? List.length (pre ++ x :: rest))%nat
                    = true)
        by (apply Nat.ltb_lt; rewrite length_app; simpl; lia).
      destruct fuel as [|fuel].
      { simpl. run. rewrite Ht, Hlt. reflexivity. }
      destruct (Hw (calls t)) as [_ [Hs _]].
      rewrite sweep_S. run. rewrite Ht, Hlt, nth_error_middle. run.
      rewrite Hs, Hx. run.
      destruct (Sub _ _ >? _); run.
      * rewrite delete_shift_spec by (rewrite length_app; simpl; lia).
        rewrite cut_middle. run.
        apply (IH pre); [reflexivity | eauto].
      * replace (S (List.length pre)) with (List.length (pre ++ [x]))
          by (rewrite length_app; simpl; lia).
        apply (IH (pre ++ [x]));
          [simpl; rewrite Ht, <- app_assoc; reflexivity | eauto].
    + apply (sweep_stat_fails w (List.length pre) x).
      * intros k. exists e'. destruct (Hw k) as [_ [Hs _]].
        rewrite Hs. exact Hx.
      * rewrite Ht. apply nth_error_middle.
Qed.

Lemma sweep_hangs_on_missing_file_aux (w : World) (Hw : steady w)
      (t : Trail) :
  (exists tl e, In tl (tails t) /\ os_Stat w 0 (Filename tl) = inr e) ->
  forall fuel, unfollowOldFiles w fuel t = OutOfFuel.
Proof.
  intros H fuel. unfold unfollowOldFiles.
  erewrite bind_Ret by reflexivity.
  unfold bind at 1.
  rewrite (sweep_stuck_steady w Hw (tails t) []);
    [reflexivity | reflexivity | exact H].
Qed.

(** X10.  In a steady world, one handle anywhere in the pool whose file
    cannot be stat'ed is enough for the sweep never to return, however
    many iterations it is given: the handles before it are dealt with,
    and then the loop stays on that handle. *)
Theorem sweep_hangs_on_missing_file (w : World) (t : Trail) (tl : Tail)
        (e : error) :
  steady w ->
  In tl (tails t) ->
  os_Stat w 0 (Filename tl) = inr e ->
  forall fuel, unfollowOldFiles w fuel t = OutOfFuel.
Proof.
  intros Hw Hin He. apply (sweep_hangs_on_missing_file_aux w Hw).
  exists tl, e. auto.
Qed.

(** X11.  A followed file is deleted: in a steady world where the file
    cannot be stat'ed any more, the [Remove] event returns with the
    handle still in the pool, and no sweep tick after it returns. *)
Theorem removed_file_hangs_the_sweeper (w : World) (handler : LineHandler)
        (path : string) (t : Trail) (e : error) :
  steady w ->
  In path (map Filename (tails t)) ->
  os_Stat w 0 path = inr e ->
  exists t',
    eventLoop_event w handler (remove_event path) t = Ret tt t' /\
    In path (map Filename (tails t')) /\
    forall fuel, task w fuel t' = OutOfFuel.
Proof.
  intros Hw Hin He.
  destruct (remove_run w handler path t) as [b [t1 [t' [_ [E [Ht _]]]]]].
  exists t'. split; [exact E|]. split; [rewrite Ht; exact Hin|].
  intros fuel. unfold task.
  erewrite bind_Ret by reflexivity.
  apply in_map_iff in Hin. destruct Hin as [tl [Hname Hin]].
  unfold bind at 1.
  rewrite (sweep_hangs_on_missing_file_aux w Hw); [reflexivity|].
  exists tl, e. simpl. rewrite Ht, Hname. auto.
Qed.

Lemma sweep_hangs_on_missing_file_witness :
  unfollowOldFiles one_gone 50 two_followed = OutOfFuel.
Proof.
  apply (sweep_hangs_on_missing_file one_gone two_followed
           (mkTail 1 current_log (tailConfig false false))
           "stat /var/log/app/current.log: no such file or directory"%string).
  - intros k. repeat split.
  - simpl. auto.
  - reflexivity.
Defined.

Lemma removed_file_hangs_the_sweeper_witness :
  exists t',
    eventLoop_event one_gone accept_all (remove_event current_log)
      two_followed = Ret tt t' /\
    In current_log (map Filename (tails t')) /\
    task one_gone 50 t' = OutOfFuel.
Proof.
  destruct (removed_file_hangs_the_sweeper one_gone accept_all current_log
              two_followed
              "stat /var/log/app/current.log: no such file or directory"%string)
    as [t' [E [Hin Hhang]]].
  - intros k. repeat split.
  - simpl. auto.
  - reflexivity.
  - exists t'. split; [exact E|]. split; [exact Hin | apply Hhang].
Defined.

(** X12.  The age tests compare exactly: for a limit below the largest
    duration, a file is older than the limit when its modification time
    plus the limit lies strictly before now, so a file whose age equals
    the limit is kept; saturation of the difference changes nothing.
    With the largest duration as limit no file is ever old. *)
Theorem age_test_is_strict (w : World) (tm : Time) (t : Trail) :
  minDuration <= FileFollowDuration (options t) <= maxDuration ->
  exists b,
    isOlderThanADay w tm t = Ret b (tick t) /\
    (FileFollowDuration (options t) < maxDuration ->
     (b = true <-> tm + FileFollowDuration (options t) < time_Now w (calls t))) /\
    (FileFollowDuration (options t) = maxDuration -> b = false).
Proof.
  intros Hrange. eexists. split; [reflexivity|].
  change (options (tick t)) with (options t).
  unfold Sub, maxDuration, minDuration in *.
  set (n := time_Now w (calls t)) in *.
  set (d := FileFollowDuration (options t)) in *.
  split.
  - intros Hlt.
    destruct (n - tm >? 9223372036854775807) eqn:E1;
      [|destruct (n - tm <? -9223372036854775808) eqn:E2].
    + apply Z.gtb_lt in E1. rewrite Z.gtb_ltb, Z.ltb_lt. lia.
    + apply Z.ltb_lt in E2. rewrite Z.gtb_ltb, Z.ltb_lt. lia.
    + rewrite Z.gtb_ltb, Z.ltb_lt. lia.
  - intros Heq.
    destruct (n - tm >? 9223372036854775807) eqn:E1;
      [|destruct (n - tm <? -9223372036854775808) eqn:E2].
    + rewrite Z.gtb_ltb. apply Z.ltb_ge. lia.
    + rewrite Z.gtb_ltb. apply Z.ltb_ge. lia.
    + rewrite Z.gtb_ltb in *. apply Z.ltb_ge in E1. apply Z.ltb_ge. lia.
Qed.

Lemma age_test_is_strict_witness :
  isOlderThanADay fresh_world 1000 sample_trail = Ret false (tick sample_trail).
Proof.
  destruct (age_test_is_strict fresh_world 1000 sample_trail)
    as [b [E [Hiff _]]].
  - vm_compute. split; discriminate.
  - rewrite E. f_equal. destruct b; [|reflexivity].
    assert (H : 1000 + 0 < 1000).
    { apply Hiff; [reflexivity | reflexivity]. }
    lia.
Defined.

(* ================================================================== *)
(** ** Package [console] *)

Lemma append_assoc (a b c : string) :
  ((a ++ b) ++ c)%string = (a ++ (b ++ c))%string.
Proof. induction a as [|x a IH]; simpl; [reflexivity | rewrite IH; reflexivity]. Qed.

Lemma append_empty_r (a : string) : (a ++ "")%string = a.
Proof. induction a as [|x a IH]; simpl; [reflexivity | rewrite IH; reflexivity]. Qed.

(** What [write] leaves behind when the logger is set. *)
Lemma write_run (e : console.Env) (output : string) (line : Line)
      (s : console.State) (l : list (Level * string)) :
  console.logger s = Some l ->
  exists s',
    console.write e output line s = Some (tt, s') /\
    console.outLog s' =
      console.outLog s ++ [(output ++ Text line ++ console.newline)%string] /\
    console.stdout s' = console.stdout s /\
    console.logger s' =
      Some (l ++ match console.File_WriteString e (console.writes s)
                         (output ++ Text line ++ console.newline)%string with
                 | Some err => [(ErrorLevel, err)]
                 | None => []
                 end).
Proof.
  intros Hl.
  unfold console.write, console.cbind, console.WriteString, console.Errorln,
    console.logln, console.cret.
  rewrite append_assoc. simpl.
  destruct (console.File_WriteString e _ _); simpl; rewrite Hl;
    eexists; (split; [reflexivity|]); simpl; rewrite ?app_nil_r; auto.
Qed.

(** X13.  With the logger set, the handler of [getHandler] returns nil
    for every line, also when the write fails.  It passes a line to
    [WriteString] exactly when the ignore pattern is unset or does not
    match the text and the line pattern is unset or matches it, so the
    ignore pattern wins over the line pattern; what it passes is the
    text with a newline, after the bracketed path, time and
    description, each only when asked for, in this order.  When that
    write fails, its error is given to the logger at error level; the
    logger gets nothing else, and nothing is printed. *)
Theorem getHandler_writes_matching_lines (e : console.Env)
        (c : console.Context) (lineReg ignoreReg : option Regexp)
        (w : console.watch) (line : Line) (s : console.State)
        (l : list (Level * string)) :
  console.logger s = Some l ->
  exists s',
    console.getHandler e c lineReg ignoreReg w line s = Some (None, s') /\
    console.outLog s' =
      console.outLog s ++
      (if line_passes lineReg ignoreReg line
       then [(line_prefix e c (console.Desc w) line ++ Text line
              ++ console.newline)%string]
       else []) /\
    console.stdout s' = console.stdout s /\
    console.logger s' =
      Some (l ++
            if line_passes lineReg ignoreReg line then
              match console.File_WriteString e (console.writes s)
                      (line_prefix e c (console.Desc w) line ++ Text line
                       ++ console.newline)%string with
              | Some err => [(ErrorLevel, err)]
              | None => []
              end
            else []).
Proof.
  intros Hl. unfold console.getHandler, line_passes.
  destruct (set_and_match ignoreReg (Text line)); simpl negb; simpl andb.
  { exists s. split; [reflexivity|]. rewrite !app_nil_r.
    split; [reflexivity|]. split; [reflexivity | exact Hl]. }
  set (output :=
         if negb (String.eqb (console.Desc w) "")
         then console.bracket
                (if console.Bool_prefix_time c
                 then console.bracket
                        (if console.BoolT_prefix_path c
                         then console.bracket "" (Path line) else "")
                        (console.Time_Format e (LTime line))
                 else if console.BoolT_prefix_path c
                      then console.bracket "" (Path line) else "")
                (console.Desc w)
         else if console.Bool_prefix_time c
              then console.bracket
                     (if console.BoolT_prefix_path c
                      then console.bracket "" (Path line) else "")
                     (console.Time_Format e (LTime line))
              else if console.BoolT_prefix_path c
                   then console.bracket "" (Path line) else "").
  assert (Hout : output = line_prefix e c (console.Desc w) line).
  { unfold output, line_prefix, console.bracket.
    destruct (String.eqb (console.Desc w) ""),
      (console.Bool_prefix_time c), (console.BoolT_prefix_path c);
      repeat (progress (simpl; rewrite ?append_assoc, ?append_empty_r));
      reflexivity. }
  destruct (write_run e output line s l Hl) as [s' [E [Ho [Hs Hlg]]]].
  rewrite Hout in *.
  destruct lineReg as [r|].
  - destruct (MatchString r (Text line)).
    + exists s'. unfold console.cbind. rewrite E.
      split; [reflexivity|]. split; [exact Ho|]. split; [exact Hs | exact Hlg].
    + exists s. unfold console.cbind, console.cret.
      split; [reflexivity|]. rewrite !app_nil_r.
      split; [reflexivity|]. split; [reflexivity | exact Hl].
  - exists s'. unfold console.cbind. rewrite E.
    split; [reflexivity|]. split; [exact Ho|]. split; [exact Hs | exact Hlg].
Qed.

Lemma getHandler_writes_matching_lines_witness :
  exists s',
    console.getHandler poor_env plain_context (Some re_log) None log_watch
      (mkLine current_log "rotating app.log" 6 None) with_logger
      = Some (None, s') /\
    console.logger s' = Some [(ErrorLevel, "no space left on device"%string)].
Proof.
  destruct (getHandler_writes_matching_lines poor_env plain_context
              (Some re_log) None log_watch
              (mkLine current_log "rotating app.log" 6 None) with_logger [])
    as [s' [E [_ [_ Hlg]]]].
  - reflexivity.
  - exists s'. split; [exact E | exact Hlg].
Defined.

(** X14.  In the second version of the handler the line pattern has no
    effect: both branches of its test write the line.  A line is
    printed and passed to [WriteString] exactly when the extension
    pattern is unset or matches the extension of the line's path, and
    the handler returns nil without a panic in every state. *)
Theorem old_getHandler_ignores_line_pattern (e : console.Env)
        (c : console.Context) (extReg lineReg : option Regexp)
        (w : console_old.watch) (line : Line) (s : console.State) :
  console_old.getHandler e c extReg lineReg w line s
    = console_old.getHandler e c extReg None w line s
  /\ exists s',
       console_old.getHandler e c extReg lineReg w line s = Some (None, s') /\
       (set_and_no_match extReg (filepath_Ext (Path line)) = true -> s' = s) /\
       (set_and_no_match extReg (filepath_Ext (Path line)) = false ->
        console.outLog s' =
          console.outLog s ++
          [(line_prefix e c (console_old.Desc w) line ++ Text line
            ++ console.newline)%string] /\
        console.stdout s' =
          console.stdout s ++
          [(line_prefix e c (console_old.Desc w) line ++ Text line)%string]).
Proof.
  split.
  - unfold console_old.getHandler.
    destruct (set_and_no_match extReg _); [reflexivity|].
    destruct (set_and_match lineReg (Text line)); reflexivity.
  - unfold console_old.getHandler.
    destruct (set_and_no_match extReg _).
    { exists s. split; [reflexivity|]. split; [reflexivity | discriminate]. }
    set (output :=
           if negb (String.eqb (console_old.Desc w) "")
           then console.bracket
                  (if console.Bool_prefix_time c
                   then console.bracket
                          (if console.BoolT_prefix_path c
                           then console.bracket "" (Path line) else "")
                          (console.Time_Format e (LTime line))
                   else if console.BoolT_prefix_path c
                        then console.bracket "" (Path line) else "")
                  (console_old.Desc w)
           else if console.Bool_prefix_time c
                then console.bracket
                       (if console.BoolT_prefix_path c
                        then console.bracket "" (Path line) else "")
                       (console.Time_Format e (LTime line))
                else if console.BoolT_prefix_path c
                     then console.bracket "" (Path line) else "").
    assert (Hout : output = line_prefix e c (console_old.Desc w) line).
    { unfold output, line_prefix, console.bracket.
      destruct (String.eqb (console_old.Desc w) ""),
        (console.Bool_prefix_time c), (console.BoolT_prefix_path c);
        repeat (progress (simpl; rewrite ?append_assoc, ?append_empty_r));
        reflexivity. }
    rewrite Hout.
    assert (Hw : exists s',
      console_old.write e (line_prefix e c (console_old.Desc w) line) line s
        = Some (tt, s') /\
      console.outLog s' =
        console.outLog s ++
        [(line_prefix e c (console_old.Desc w) line ++ Text line
          ++ console.newline)%string] /\
      console.stdout s' =
        console.stdout s ++
        [(line_prefix e c (console_old.Desc w) line ++ Text line)%string]).
    { unfold console_old.write, console.cbind, console.Println,
        console.WriteString, console.std_Errorln, console.cret.
      rewrite append_assoc. simpl.
      destruct (console.File_WriteString e _ _); eexists;
        (split; [reflexivity|]); simpl; auto. }
    destruct Hw as [s' [E [Ho Hs]]].
    exists s'. unfold console.cbind.
    destruct (set_and_match lineReg (Text line)); rewrite E;
      (split; [reflexivity|]); (split; [discriminate | auto]).
Qed.

(** X15.  [contains] answers true exactly when the string is an element
    of the slice; on the empty slice it answers false. *)
Theorem contains_iff_In (s : list string) (substr : string) :
  console_old.contains s substr = true <-> In substr s.
Proof.
  induction s as [|v s IH]; simpl.
  - split; [discriminate | tauto].
  - destruct (String.eqb v substr) eqn:E.
    + apply String.eqb_eq in E. split; auto.
    + apply String.eqb_neq in E. rewrite IH. split; [auto|].
      intros [H|H]; [contradiction | exact H].
Qed.

(** X16.  [bToMb] rounds a count of bytes down to whole mebibytes: the
    result times 2^20 is at most the argument and the next multiple is
    above it; for a uint64 argument the result is below 2^44. *)
Theorem bToMb_rounds_down (b : Z) :
  0 <= b < 2 ^ 64 ->
  console.bToMb b = b / 1048576 /\
  1048576 * console.bToMb b <= b < 1048576 * (console.bToMb b + 1) /\
  0 <= console.bToMb b < 2 ^ 44.
Proof.
  intros Hb. unfold console.bToMb.
  rewrite Z.div_div by lia. change (1024 * 1024) with 1048576.
  split; [reflexivity|].
  assert (H := Z.mul_div_le b 1048576 ltac:(lia)).
  assert (H' := Z.mul_succ_div_gt b 1048576 ltac:(lia)).
  split; [lia|].
  split; [apply Z.div_pos; lia|].
  apply Z.div_lt_upper_bound; [lia|].
  change (1048576 * 2 ^ 44) with (2 ^ 64). lia.
Qed.

Lemma bToMb_rounds_down_witness :
  console.bToMb 3145727 = 2.
Proof.
  destruct (bToMb_rounds_down 3145727) as [E _]; [lia|].
  rewrite E. reflexivity.
Defined.

Lemma cbind_Some {A B} (c : console.C A) (k : A -> console.C B)
      (s s' : console.State) (a : A) :
  c s = Some (a, s') -> console.cbind c k s = k a s'.
Proof. intros E. unfold console.cbind. rewrite E. reflexivity. Qed.

Lemma only_logged_trans (s1 s2 s3 : console.State) :
  only_logged s1 s2 -> only_logged s2 s3 -> only_logged s1 s3.
Proof.
  unfold only_logged. intros [_ [H1 [H2 H3]]] [H4 [H5 [H6 H7]]].
  repeat split; congruence.
Qed.

Lemma logln_set (lv : Level) (msg : string) (s : console.State) :
  console.logger s <> None ->
  exists s', console.logln lv msg s = Some (tt, s') /\ only_logged s s'.
Proof.
  intros H. unfold console.logln.
  destruct (console.logger s) as [l|]; [|congruence].
  eexists. split; [reflexivity|]. unfold only_logged. simpl.
  repeat split; discriminate.
Qed.

(** One pattern of a round: compiled when it is not empty, with the
    error logged and the old value kept when it does not compile. *)
Lemma compile_step (e : console.Env) (pattern : string)
      (old : option Regexp) (note : option string) (s : console.State) :
  console.logger s <> None ->
  exists s',
    (if (0 <? String.length pattern)%nat then
       match console.regexp_Compile e pattern with
       | inl r =>
           match note with
           | Some msg =>
               console.cbind (console.Debugln msg)
                 (fun _ => console.cret (Some r))
           | None => console.cret (Some r)
           end
       | inr err =>
           console.cbind (console.Errorln err) (fun _ => console.cret old)
       end
     else console.cret old) s
    = Some (kept_or_compiled e pattern old, s') /\
    only_logged s s'.
Proof.
  intros Hl. unfold kept_or_compiled.
  assert (Hrefl : only_logged s s)
    by (unfold only_logged; repeat split; auto).
  destruct (0 <? String.length pattern)%nat.
  - destruct (console.regexp_Compile e pattern) as [r|err].
    + destruct note as [msg|].
      * destruct (logln_set DebugLevel msg s Hl) as [s' [E Q]].
        exists s'. unfold console.Debugln.
        rewrite (cbind_Some _ _ _ _ _ E). auto.
      * exists s. auto.
    + destruct (logln_set ErrorLevel err s Hl) as [s' [E Q]].
      exists s'. unfold console.Errorln.
      rewrite (cbind_Some _ _ _ _ _ E). auto.
  - exists s. auto.
Qed.

(** One round of the loop, when the logger is set. *)
Lemma watchSetup_run (e : console.Env) (o : TrailOptions)
      (w : console.watch) (s : console.State) :
  console.logger s <> None ->
  exists s',
    console.watchSetup e o w s =
      Some ((mkTrailOptions (PollChanges o)
               (kept_or_compiled e (console.FilePattern w) (FileReg o))
               (kept_or_compiled e (console.FileIgnorePattern w)
                  (FileIgnoreReg o))
               (duration_or_week (console.IgnoreDuration w))
               (duration_or_week (console.FollowDuration w))
               (kept_or_compiled e (console.PathPattern w) (PathReg o)),
             kept_or_compiled e (console.LinePattern w) None,
             kept_or_compiled e (console.LineIgnorePattern w) None), s') /\
    only_logged s s'.
Proof.
  intros Hl. unfold console.watchSetup.
  destruct (compile_step e (console.FilePattern w) (FileReg o)
              (Some "FilePatternRegex created"%string) s Hl)
    as [s1 [E1 Q1]].
  rewrite (cbind_Some _ _ _ _ _ E1).
  destruct (compile_step e (console.FileIgnorePattern w) (FileIgnoreReg o)
              None s1 (proj1 Q1)) as [s2 [E2 Q2]].
  rewrite (cbind_Some _ _ _ _ _ E2).
  destruct (compile_step e (console.PathPattern w) (PathReg o)
              None s2 (proj1 Q2)) as [s3 [E3 Q3]].
  rewrite (cbind_Some _ _ _ _ _ E3).
  destruct (compile_step e (console.LinePattern w) None
              None s3 (proj1 Q3)) as [s4 [E4 Q4]].
  rewrite (cbind_Some _ _ _ _ _ E4).
  destruct (compile_step e (console.LineIgnorePattern w) None
              None s4 (proj1 Q4)) as [s5 [E5 Q5]].
  rewrite (cbind_Some _ _ _ _ _ E5).
  exists s5. split; [reflexivity|].
  eauto using only_logged_trans.
Qed.

(** All rounds of the loop, when the logger is set. *)
Lemma watchSetups_run (e : console.Env) (ws : list console.watch) :
  forall o s,
    console.logger s <> None ->
    exists rs s',
      console.watchSetups e o ws s = Some (rs, s') /\
      only_logged s s' /\
      map (fun r => FileReg (round_options r)) rs
        = carried e console.FilePattern (FileReg o) ws /\
      map (fun r => FileIgnoreReg (round_options r)) rs
        = carried e console.FileIgnorePattern (FileIgnoreReg o) ws /\
      map (fun r => PathReg (round_options r)) rs
        = carried e console.PathPattern (PathReg o) ws /\
      map round_lineReg rs
        = map (fun w => kept_or_compiled e (console.LinePattern w) None) ws /\
      map round_ignoreReg rs
        = map (fun w => kept_or_compiled e (console.LineIgnorePattern w) None)
            ws /\
      map (fun r => FileIgnoreDuration (round_options r)) rs
        = map (fun w => duration_or_week (console.IgnoreDuration w)) ws /\
      map (fun r => FileFollowDuration (round_options r)) rs
        = map (fun w => duration_or_week (console.FollowDuration w)) ws /\
      Forall (fun r => PollChanges (round_options r) = PollChanges o) rs.
Proof.
  induction ws as [|w ws IH]; intros o s Hl.
  - exists [], s. simpl. unfold only_logged. repeat split; auto.
  - destruct (watchSetup_run e o w s Hl) as [s1 [E1 Q1]].
    simpl console.watchSetups. rewrite (cbind_Some _ _ _ _ _ E1).
    match goal with
    | |- context [console.watchSetups e ?o1 ws] =>
        destruct (IH o1 s1 (proj1 Q1))
          as [rs [s' [E [Q [H1 [H2 [H3 [H4 [H5 [H6 [H7 H8]]]]]]]]]]]
    end.
    rewrite (cbind_Some _ _ _ _ _ E).
    eexists. exists s'. split; [reflexivity|].
    split; [eauto using only_logged_trans|].
    simpl in H1, H2, H3, H8. simpl.
    rewrite H1, H2, H3, H4, H5, H6, H7.
    repeat split; auto.
Qed.

Lemma duration_or_week_pos (d : Duration) : 0 < duration_or_week d.
Proof.
  unfold duration_or_week. destruct (d >? 0) eqn:E; [|lia].
  apply Z.gtb_lt in E. exact E.
Qed.

(** X17.  With the logger set, the loop of [MainAction] over the watch
    sections gets through every section without a panic, and in each
    round the two durations it hands to the trail are the configured
    ones when these are positive and seven days (604800000000000 ns)
    otherwise: a trail made by the command line never has a limit of
    0 or below. *)
Theorem watch_durations_default_to_a_week (e : console.Env)
        (o : TrailOptions) (ws : list console.watch) (s : console.State) :
  console.logger s <> None ->
  exists rs s',
    console.watchSetups e o ws s = Some (rs, s') /\
    map (fun r => FileIgnoreDuration (round_options r)) rs
      = map (fun w => duration_or_week (console.IgnoreDuration w)) ws /\
    map (fun r => FileFollowDuration (round_options r)) rs
      = map (fun w => duration_or_week (console.FollowDuration w)) ws /\
    Forall (fun r => 0 < FileIgnoreDuration (round_options r) /\
                     0 < FileFollowDuration (round_options r)) rs.
Proof.
  intros Hl.
  destruct (watchSetups_run e ws o s Hl)
    as [rs [s' [E [_ [_ [_ [_ [_ [_ [H6 [H7 _]]]]]]]]]]].
  exists rs, s'. split; [exact E|]. split; [exact H6|]. split; [exact H7|].
  apply Forall_forall. intros r Hin. split.
  - assert (H : In (FileIgnoreDuration (round_options r))
                   (map (fun r => FileIgnoreDuration (round_options r)) rs))
      by (apply in_map_iff; eauto).
    rewrite H6 in H. apply in_map_iff in H. destruct H as [w [<- _]].
    apply duration_or_week_pos.
  - assert (H : In (FileFollowDuration (round_options r))
                   (map (fun r => FileFollowDuration (round_options r)) rs))
      by (apply in_map_iff; eauto).
    rewrite H7 in H. apply in_map_iff in H. destruct H as [w [<- _]].
    apply duration_or_week_pos.
Qed.

Lemma watch_durations_default_to_a_week_witness :
  exists rs s',
    console.watchSetups fair_env defaultOptions [log_watch; bare_watch]
      with_logger = Some (rs, s') /\
    map (fun r => FileFollowDuration (round_options r)) rs
      = [604800000000000; 604800000000000].
Proof.
  destruct (watch_durations_default_to_a_week fair_env defaultOptions
              [log_watch; bare_watch] with_logger)
    as [rs [s' [E [_ [H _]]]]].
  - discriminate.
  - exists rs, s'. split; [exact E | exact H].
Defined.

(** X18.  The file pattern, the file ignore pattern and the path
    pattern live in the one options value that all rounds of the loop
    share: a watch section that leaves one of them empty, or gives one
    that does not compile, gets the pattern of the nearest section
    before it that set one.  The two line patterns are variables of
    the round and start from nil in every section. *)
Theorem file_patterns_carry_over (e : console.Env) (o : TrailOptions)
        (ws : list console.watch) (s : console.State) :
  console.logger s <> None ->
  exists rs s',
    console.watchSetups e o ws s = Some (rs, s') /\
    map (fun r => FileReg (round_options r)) rs
      = carried e console.FilePattern (FileReg o) ws /\
    map (fun r => FileIgnoreReg (round_options r)) rs
      = carried e console.FileIgnorePattern (FileIgnoreReg o) ws /\
    map (fun r => PathReg (round_options r)) rs
      = carried e console.PathPattern (PathReg o) ws /\
    map round_lineReg rs
      = map (fun w => kept_or_compiled e (console.LinePattern w) None) ws /\
    map round_ignoreReg rs
      = map (fun w => kept_or_compiled e (console.LineIgnorePattern w) None)
          ws.
Proof.
  intros Hl.
  destruct (watchSetups_run e ws o s Hl)
    as [rs [s' [E [_ [H1 [H2 [H3 [H4 [H5 _]]]]]]]]].
  exists rs, s'. auto 10.
Qed.

Lemma file_patterns_carry_over_witness :
  exists rs s',
    console.watchSetups fair_env defaultOptions [log_watch; bare_watch]
      with_logger = Some (rs, s') /\
    map (fun r => FileReg (round_options r)) rs = [Some re_log; Some re_log].
Proof.
  destruct (file_patterns_carry_over fair_env defaultOptions
              [log_watch; bare_watch] with_logger)
    as [rs [s' [E [H _]]]].
  - discriminate.
  - exists rs, s'. split; [exact E | exact H].
Defined.

(** X19.  When the configuration file decodes, [setConfig] returns true
    with a log level that is not empty: the one of the file, or "info"
    when the file has none.  The pool setting is the command-line flag
    when the flag is set and the one of the file otherwise; the watch
    sections and the log file are those of the file, and the logger is
    not needed. *)
Theorem setConfig_fills_defaults (e : console.Env) (c : console.Context)
        (s : console.State) :
  snd (console.toml_DecodeFile e (console.String_conf c)) = None ->
  exists conf,
    console.setConfig e c s = Some ((conf, true), s) /\
    console.LogLevel conf <> ""%string /\
    console.LogLevel conf =
      (if String.eqb
            (console.LogLevel
               (fst (console.toml_DecodeFile e (console.String_conf c)))) ""
       then "info"%string
       else console.LogLevel
              (fst (console.toml_DecodeFile e (console.String_conf c)))) /\
    console.Pool conf =
      (if console.IsSet_pool c then console.Bool_pool c
       else console.Pool
              (fst (console.toml_DecodeFile e (console.String_conf c)))) /\
    console.Watch conf =
      console.Watch (fst (console.toml_DecodeFile e (console.String_conf c)))
    /\
    console.Log conf =
      console.Log (fst (console.toml_DecodeFile e (console.String_conf c))).
Proof.
  intros Hok. unfold console.setConfig. rewrite Hok.
  destruct (console.toml_DecodeFile e (console.String_conf c))
    as [file err]. simpl fst.
  destruct file as [ws lg pool level pt pp].
  destruct (console.IsSet_pool c); simpl;
    destruct level as [|a level]; simpl;
    eexists; (split; [reflexivity|]); simpl;
    repeat split; discriminate.
Qed.

Lemma setConfig_fills_defaults_witness :
  exists conf,
    console.setConfig fair_env plain_context at_start
      = Some ((conf, true), at_start) /\
    console.LogLevel conf = "info"%string.
Proof.
  destruct (setConfig_fills_defaults fair_env plain_context at_start)
    as [conf [E [_ [H _]]]].
  - reflexivity.
  - exists conf. split; [exact E | exact H].
Defined.

(** X20.  When the configuration file does not decode, [setConfig]
    reports the error through the package logger.  With the logger set
    it logs the error and returns false; while the logger is nil, as it
    is until [setLogger] has run, the call panics, and [MainAction]
    calls [setConfig] before [setLogger]. *)
Theorem setConfig_needs_the_logger (e : console.Env) (c : console.Context)
        (s : console.State) (err : error) :
  snd (console.toml_DecodeFile e (console.String_conf c)) = Some err ->
  (console.logger s = None -> console.setConfig e c s = None)
  /\ (forall l, console.logger s = Some l ->
        console.setConfig e c s =
          Some ((fst (console.toml_DecodeFile e (console.String_conf c)),
                 false),
                console.mkState (Some (l ++ [(ErrorLevel, err)]))
                  (console.stdlog s) (console.outLog s) (console.stdout s)
                  (console.writes s))).
Proof.
  intros Herr. unfold console.setConfig. rewrite Herr.
  unfold console.cbind, console.Errorln, console.logln, console.cret.
  split.
  - intros Hl. rewrite Hl. reflexivity.
  - intros l Hl. rewrite Hl. reflexivity.
Qed.

Lemma setConfig_needs_the_logger_witness :
  console.setConfig poor_env plain_context at_start = None.
Proof.
  apply (setConfig_needs_the_logger poor_env plain_context at_start
           "open sauron.conf: no such file or directory"%string).
  - reflexivity.
  - reflexivity.
Defined.

(* ================================================================== *)
(** ** The pid file *)

Lemma Itoa_parses (n : Z) :
  DecimalString.NilZero.int_of_string (Itoa n) = Some (Z.to_int n).
Proof.
  unfold Itoa. apply DecimalString.NilZero.isi.
  - destruct n as [|p|p]; simpl.
    + discriminate.
    + intros E. injection E as E.
      exact (DecimalPos.Unsigned.to_uint_nonnil p E).
    + discriminate.
  - destruct n as [|p|p]; simpl.
    + discriminate.
    + discriminate.
    + intros E. injection E as E.
      exact (DecimalPos.Unsigned.to_uint_nonnil p E).
Qed.

Lemma Itoa_no_plus (n : Z) (s : string) : Itoa n <> String "+" s.
Proof.
  unfold Itoa. intros H.
  assert (Hd := Itoa_parses n). unfold Itoa in Hd.
  rewrite H in Hd. simpl in Hd.
  destruct (DecimalString.NilEmpty.uint_of_string s); discriminate.
Qed.

(** What [Itoa] prints, [Atoi] reads back. *)
Lemma Atoi_Itoa (n : Z) :
  minInt64 <= n <= maxInt64 -> Atoi (Itoa n) = inl n.
Proof.
  intros Hn. unfold Atoi.
  assert (Hplus := Itoa_no_plus n).
  assert (Hd : DecimalString.NilZero.int_of_string (Itoa n)
               = Some (Z.to_int n)).
  { apply Itoa_parses. }
  destruct (Itoa n) as [|a s] eqn:E.
  - simpl in Hd. discriminate.
  - assert (Ha : a <> "+"%char) by (intros ->; apply (Hplus s); reflexivity).
    replace (match String a s with
             | String "+" s' =>
                 option_map Decimal.Pos
                   (DecimalString.NilZero.uint_of_string s')
             | _ => DecimalString.NilZero.int_of_string (String a s)
             end)
      with (DecimalString.NilZero.int_of_string (String a s)).
    + rewrite Hd, DecimalZ.of_to.
      replace ((minInt64 <=? n) && (n <=? maxInt64)) with true; [reflexivity|].
      symmetry. apply andb_true_iff. split; apply Z.leb_le; lia.
    + destruct a as [[|] [|] [|] [|] [|] [|] [|] [|]]; try reflexivity.
      exfalso. apply Ha. reflexivity.
Qed.

(** X21.  A pid file holding the decimal pid that an earlier run wrote
    is read back as that pid: when the process still answers signal 0,
    [writePidFile] returns the error "pid already running" with the pid
    and does not touch the file. *)
Theorem writePidFile_finds_running_instance (os : pidfile.OS) (pid : Z) :
  minInt64 <= pid <= maxInt64 ->
  pidfile.ReadFile os (pidfile.pidFile os) = inl (Itoa pid) ->
  pidfile.FindProcess os pid = None ->
  pidfile.Signal0 os pid = None ->
  pidfile.writePidFile os
  = (Some ("pid already running: " ++ Itoa pid)%string, []).
Proof.
  intros Hpid Hread Hfind Hsig. unfold pidfile.writePidFile.
  rewrite Hread, (Atoi_Itoa pid Hpid), Hfind, Hsig. reflexivity.
Qed.

Lemma writePidFile_finds_running_instance_witness :
  pidfile.writePidFile second_start
  = (Some "pid already running: 4711"%string, []).
Proof.
  apply (writePidFile_finds_running_instance second_start 4711).
  - unfold minInt64, maxInt64. lia.
  - reflexivity.
  - reflexivity.
  - reflexivity.
Defined.

(** X22.  [writePidFile] does one of two things.  Either the pid file
    can be read, holds a number and the process of that number answers
    signal 0: then the result is the error naming that pid and nothing
    is written.  Or, in every other case, the file is overwritten with
    the decimal pid of this process and the result is that of the
    write. *)
Theorem writePidFile_reports_or_overwrites (os : pidfile.OS) :
  (exists pid,
     instance_running os pid /\
     pidfile.writePidFile os
     = (Some ("pid already running: " ++ Itoa pid)%string, []))
  \/ ((forall pid, ~ instance_running os pid) /\
      pidfile.writePidFile os
      = (pidfile.WriteFile os (pidfile.pidFile os)
           (Itoa (pidfile.Getpid os)),
         [(pidfile.pidFile os, Itoa (pidfile.Getpid os))])).
Proof.
  unfold pidfile.writePidFile, instance_running, pidfile.overwrite.
  destruct (pidfile.ReadFile os (pidfile.pidFile os)) as [data|e] eqn:Hr.
  - destruct (Atoi data) as [pid|e] eqn:Ha.
    + destruct (pidfile.FindProcess os pid) as [e|] eqn:Hf.
      * right. split; [|reflexivity].
        intros pid' [data' [H1 [H2 [H3 _]]]].
        injection H1 as <-. rewrite Ha in H2. injection H2 as <-. congruence.
      * destruct (pidfile.Signal0 os pid) as [e|] eqn:Hs.
        -- right. split; [|reflexivity].
           intros pid' [data' [H1 [H2 [_ H4]]]].
           injection H1 as <-. rewrite Ha in H2. injection H2 as <-.
           congruence.
        -- left. exists pid. split; [|reflexivity].
           exists data. auto.
    + right. split; [|reflexivity].
      intros pid' [data' [H1 [H2 _]]].
      injection H1 as <-. congruence.
  - right. split; [|reflexivity].
    intros pid' [data' [H1 _]]. discriminate.
Qed.

Lemma uint_of_string_newline (s : string) :
  DecimalString.NilEmpty.uint_of_string (s ++ console.newline)%string = None.
Proof.
  induction s as [|a s IH]; simpl.
  - reflexivity.
  - rewrite IH. reflexivity.
Qed.

Lemma Atoi_newline (s : string) :
  exists e, Atoi (s ++ console.newline)%string = inr e.
Proof.
  unfold Atoi.
  assert (H : match (s ++ console.newline)%string with
              | String "+" s' =>
                  option_map Decimal.Pos
                    (DecimalString.NilZero.uint_of_string s')
              | _ => DecimalString.NilZero.int_of_string
                       (s ++ console.newline)%string
              end = None).
  { destruct s as [|a s].
    - reflexivity.
    - change ((String a s ++ console.newline)%string)
        with (String a (s ++ console.newline)%string).
      assert (Hu : DecimalString.NilZero.uint_of_string
                     (s ++ console.newline)%string = None).
      { unfold DecimalString.NilZero.uint_of_string.
        destruct (s ++ console.newline)%string eqn:E; [reflexivity|].
        rewrite <- E. apply uint_of_string_newline. }
      assert (Hi : DecimalString.NilZero.int_of_string
                     (String a (s ++ console.newline)%string) = None).
      { unfold DecimalString.NilZero.int_of_string.
        destruct (Ascii.eqb a "-").
        - rewrite Hu. reflexivity.
        - unfold DecimalString.NilZero.uint_of_string.
          change (DecimalString.NilEmpty.uint_of_string
                    (String a (s ++ console.newline)%string))
            with (DecimalString.uint_of_char a
                    (DecimalString.NilEmpty.uint_of_string
                       (s ++ console.newline)%string)).
          rewrite uint_of_string_newline. reflexivity. }
      destruct a as [[|] [|] [|] [|] [|] [|] [|] [|]];
        try exact Hi.
      rewrite Hu. reflexivity. }
  rewrite H. eexists. reflexivity.
Qed.

(** X23.  A pid file that ends in a newline is not read as a number:
    [writePidFile] does not find the instance it names, running or
    not, and overwrites the file with the pid of this process. *)
Theorem writePidFile_rejects_trailing_newline (os : pidfile.OS)
        (data : string) :
  pidfile.ReadFile os (pidfile.pidFile os)
    = inl (data ++ console.newline)%string ->
  pidfile.writePidFile os
  = (pidfile.WriteFile os (pidfile.pidFile os) (Itoa (pidfile.Getpid os)),
     [(pidfile.pidFile os, Itoa (pidfile.Getpid os))]).
Proof.
  intros Hread. unfold pidfile.writePidFile. rewrite Hread.
  destruct (Atoi_newline data) as [e He]. rewrite He. reflexivity.
Qed.

Lemma writePidFile_rejects_trailing_newline_witness :
  pidfile.writePidFile edited_pidfile
  = (None, [("/opt/sauron/sauron.pid"%string, "4812"%string)]).
Proof.
  apply (writePidFile_rejects_trailing_newline edited_pidfile "4711").
  reflexivity.
Defined.

Example Ext_of_log : filepath_Ext "/var/log/app.d/current.log" = ".log".
Proof. reflexivity. Qed.

Example Ext_without_dot : filepath_Ext "/var/log/app.d/current" = "".
Proof. reflexivity. Qed.

Example Atoi_signs :
  Atoi "+42" = inl 42 /\ Atoi "-7" = inl (-7) /\ Atoi "007" = inl 7.
Proof. repeat split. Qed.

(* ================================================================== *)
(** ** From [Follow] to [End] *)


